(** * Robot Framework results to Slack: the extraction and notification core

    A shallow embedding of [src/index.ts] (class [RobotFrameworkResultsToSlack])
    and the properties of its two stages: reading the aggregate statistics out
    of the report text, and building and handing over the Slack message.

    JavaScript values are modelled as the program has them: strings are
    sequences of UTF-16 code units, numbers are IEEE 754 binary64 values
    (Rocq's primitive floats), regular expressions are run by a backtracking
    matcher, and the effects of [run] (log lines, the failure flag of
    [core.setFailed], the messages handed to the webhook, thrown errors) are
    threaded through a small state-and-exception monad. *)

From Stdlib Require Import Ascii String.
From Stdlib Require Import ZArith NArith Bool List Permutation Floats Lia.
Import ListNotations.

Set Implicit Arguments.

(** ** Strings *)

(** A JavaScript string is a list of UTF-16 code units. *)
Definition char := N.
Definition jsstring := list char.

(** Literals of the source are written as Rocq strings and read as code units
    (the source's literals are all ASCII). *)
Definition lit (s : string) : jsstring :=
  map N_of_ascii (list_ascii_of_string s).

Fixpoint eqs (a b : jsstring) : bool :=
  match a, b with
  | [], [] => true
  | x :: a', y :: b' => N.eqb x y && eqs a' b'
  | _, _ => false
  end.

(** [strip_prefix p s] is [Some r] when [s = p ++ r]. *)
Fixpoint strip_prefix (p s : jsstring) : option jsstring :=
  match p with
  | [] => Some s
  | x :: p' =>
      match s with
      | y :: s' => if N.eqb x y then strip_prefix p' s' else None
      | [] => None
      end
  end.

Definition starts_with (p s : jsstring) : bool :=
  match strip_prefix p s with Some _ => true | None => false end.

(** ** Regular expressions

    The three patterns of the source use literal characters, a greedy
    [[...]+] over a character class, and look-behind and look-ahead assertions
    with literal bodies.  The matcher below follows the backtracking semantics
    of ECMAScript for these nodes: [ClassPlus] first tries to take one more
    character and falls back to the continuation only when that fails. *)

Inductive node : Type :=
| Chars (s : jsstring)
| ClassPlus (c : char -> bool)
| LookBehind (s : jsstring)
| LookAhead (s : jsstring).

Definition regex := list node.

(** The greedy loop of [ClassPlus]: [k] is the rest of the pattern. *)
Fixpoint greedy (c : char -> bool) (k : jsstring -> jsstring -> option jsstring)
  (acc rest : jsstring) : option jsstring :=
  match rest with
  | x :: rest' =>
      if c x then
        match greedy c k (x :: acc) rest' with
        | Some m => Some m
        | None => k (x :: acc) rest'
        end
      else None
  | [] => None
  end.

(** [matchHere r before acc rest]: the input read before the start of the
    match, reversed, is [before]; the characters matched so far, reversed, are
    [acc]; [rest] is still to be read.  The result is the matched string. *)
Fixpoint matchHere (r : regex) (before acc rest : jsstring) : option jsstring :=
  match r with
  | [] => Some (rev acc)
  | Chars s :: r' =>
      match strip_prefix s rest with
      | Some rest' => matchHere r' before (rev s ++ acc) rest'
      | None => None
      end
  | ClassPlus c :: r' =>
      greedy c (fun acc' rest' => matchHere r' before acc' rest') acc rest
  | LookBehind s :: r' =>
      if starts_with (rev s) (acc ++ before)
      then matchHere r' before acc rest else None
  | LookAhead s :: r' =>
      if starts_with s rest then matchHere r' before acc rest else None
  end.

(** [String.prototype.match] with a non-global pattern: the leftmost start
    position at which the pattern matches, the end of input included. *)
Fixpoint execFrom (r : regex) (before rest : jsstring) : option jsstring :=
  match matchHere r before [] rest with
  | Some m => Some m
  | None =>
      match rest with
      | [] => None
      | x :: rest' => execFrom r (x :: before) rest'
      end
  end.

Definition exec (r : regex) (s : jsstring) : option jsstring := execFrom r [] s.

(** The class [\s] of ECMAScript: white space and line terminators. *)
Definition isSpace (c : char) : bool :=
  ((9 <=? c) && (c <=? 13) || (c =? 32) || (c =? 160) || (c =? 5760)
   || (8192 <=? c) && (c <=? 8202) || (c =? 8232) || (c =? 8233)
   || (c =? 8239) || (c =? 8287) || (c =? 12288) || (c =? 65279))%N.

(** The characters [>] (62), [=] (61) and the double quote (34). *)
Definition c_gt : char := 62%N.
Definition c_eq : char := 61%N.
Definition c_quote : char := 34%N.

(** [/<stat[^>]+>All Tests<\/stat>/] *)
Definition summaryRe : regex :=
  [Chars (lit "<stat"); ClassPlus (fun c => negb (N.eqb c c_gt));
   Chars (lit ">All Tests</stat>")].

(** The pattern built in [getArg]: a look-behind for the argument name
    followed by [=] and a double quote, then [[^\s]+], then a look-ahead for a
    double quote. *)
Definition argRe (arg : jsstring) : regex :=
  [LookBehind (arg ++ [c_eq; c_quote]); ClassPlus (fun c => negb (isSpace c));
   LookAhead [c_quote]].

(** The pattern for the generation stamp: a look-behind for [generated=] and
    a double quote, then one or more characters other than the double quote,
    then a look-ahead for a double quote. *)
Definition generatedRe : regex :=
  [LookBehind (lit "generated=" ++ [c_quote]);
   ClassPlus (fun c => negb (N.eqb c c_quote)); LookAhead [c_quote]].

(** Report texts are written with an apostrophe where the file has a double
    quote, and [xml] puts the double quotes back. *)
Definition xml (s : string) : jsstring :=
  map (fun c => if N.eqb c 39 then c_quote else c) (lit s).

(** ** Numbers

    A JavaScript number is a binary64 value.  Arithmetic is that of Rocq's
    primitive floats; conversions to and from text go through the exact
    rational value of a float. *)

Definition number := float.

Local Open Scope Z_scope.

(** The number nearest to an integer (round to nearest, ties to even). *)
Definition Z2F (z : Z) : number :=
  SF2Prim (binary_normalize prec emax z 0 false).

(** The number nearest to the positive rational [num / den]. *)
Definition roundQ (num den : Z) : spec_float :=
  let '(mz, ez, lz) := SFdiv_core_binary prec emax num 0 den 0 in
  binary_round_aux prec emax false mz ez lz.

Definition digitChar (d : Z) : char := Z.to_N (48 + d).

Fixpoint digitsAux (fuel : nat) (z : Z) (acc : jsstring) : jsstring :=
  match fuel with
  | O => acc
  | S fuel' =>
      if z <? 10 then digitChar z :: acc
      else digitsAux fuel' (z / 10) (digitChar (z mod 10) :: acc)
  end.

(** The decimal digits of a non-negative integer. *)
Definition digitsOf (z : Z) : jsstring :=
  digitsAux (S (Z.to_nat (Z.log2 z))) z [].

(** [ge10 n num den]: [10^n <= num/den]. *)
Definition ge10 (n num den : Z) : bool :=
  if 0 <=? n then den * 10 ^ n <=? num else den <=? num * 10 ^ (- n).

Fixpoint decExpUp (fuel : nat) (num den n : Z) : Z :=
  match fuel with
  | O => n
  | S fuel' => if ge10 n num den then decExpUp fuel' num den (n + 1) else n
  end.

Fixpoint decExpDown (fuel : nat) (num den n : Z) : Z :=
  match fuel with
  | O => n
  | S fuel' =>
      if ge10 (n - 1) num den then n else decExpDown fuel' num den (n - 1)
  end.

(** The [n] with [10^(n-1) <= num/den < 10^n]; a binary64 value lies between
    [10^-324] and [10^309]. *)
Definition decExp (num den : Z) : Z :=
  if ge10 0 num den then decExpUp 400 num den 1 else decExpDown 400 num den 0.

(** [Number::toString], the digit search: the least [k] for which some
    [s] of [k] digits has [s * 10^(n-k)] round to [x]; of two such [s] the
    one nearer to [x]. The result is [(n, s)], with the digits of [s]. *)
Fixpoint shortest (fuel : nat) (x : spec_float) (num den n k : Z)
  : option (Z * Z) :=
  match fuel with
  | O => None
  | S fuel' =>
      let e := n - k in
      let tn := if e <=? 0 then num * 10 ^ (- e) else num in
      let td := if e <=? 0 then den else den * 10 ^ e in
      let lo := tn / td in
      let hi := lo + 1 in
      let rounds s :=
        match SFcompare (if e <=? 0 then roundQ s (10 ^ (- e))
                         else roundQ (s * 10 ^ e) 1) x with
        | Some Eq => true
        | _ => false
        end in
      let okLo := (0 <? lo) && rounds lo in
      let okHi := rounds hi in
      let pickHi := if hi =? 10 ^ k then (n + 1, 1) else (n, hi) in
      if okLo && okHi then
        match 2 * tn ?= (2 * lo + 1) * td with
        | Lt => Some (n, lo)
        | Gt => Some pickHi
        | Eq => if Z.even lo then Some (n, lo) else Some pickHi
        end
      else if okLo then Some (n, lo)
      else if okHi then Some pickHi
      else shortest fuel' x num den n (k + 1)
  end.

Definition c_dot : char := 46%N.
Definition c_minus : char := 45%N.
Definition c_plus : char := 43%N.
Definition c_e : char := 101%N.
Definition c_0 : char := 48%N.

(** The notation chosen by [Number::toString] for digits [ds] (there are [k]
    of them) and decimal exponent [n]. *)
Definition notation (ds : jsstring) (n : Z) : jsstring :=
  let k := Z.of_nat (length ds) in
  if (k <=? n) && (n <=? 21) then ds ++ repeat c_0 (Z.to_nat (n - k))
  else if (0 <? n) && (n <=? 21) then
    firstn (Z.to_nat n) ds ++ c_dot :: skipn (Z.to_nat n) ds
  else if (-6 <? n) && (n <=? 0) then
    c_0 :: c_dot :: repeat c_0 (Z.to_nat (- n)) ++ ds
  else
    let ex := (if 0 <=? n - 1 then c_plus else c_minus)
              :: digitsOf (Z.abs (n - 1)) in
    match ds with
    | [d] => d :: c_e :: ex
    | d :: ds' => d :: c_dot :: ds' ++ c_e :: ex
    | [] => []
    end.

(** [Number::toString(x)] in radix 10. *)
Definition toString (x : number) : jsstring :=
  match Prim2SF x with
  | S754_nan => lit "NaN"
  | S754_zero _ => lit "0"
  | S754_infinity sg => (if sg then [c_minus] else []) ++ lit "Infinity"
  | S754_finite sg m e =>
      let num := if 0 <=? e then Z.pos m * 2 ^ e else Z.pos m in
      let den := if 0 <=? e then 1 else 2 ^ (- e) in
      let body :=
        match shortest 800 (S754_finite false m e) num den (decExp num den) 1 with
        | Some (n, s) => notation (digitsOf s) n
        | None => []
        end in
      (if sg then [c_minus] else []) ++ body
  end.

(** [Number.prototype.toFixed(1)]: not finite, or of magnitude [10^21] and
    more, the number prints as [toString] has it; otherwise the integer [n]
    nearest to [10 * x] (the larger of two) is printed with a point before
    its last digit. *)
Definition toFixed1 (x : number) : jsstring :=
  match Prim2SF x with
  | S754_finite sg m e =>
      let num := if 0 <=? e then Z.pos m * 2 ^ e else Z.pos m in
      let den := if 0 <=? e then 1 else 2 ^ (- e) in
      if 10 ^ 21 * den <=? num then toString x
      else
        let n := (20 * num + den) / (2 * den) in
        let m0 := digitsOf n in
        let m1 := if Z.of_nat (length m0) <=? 1 then c_0 :: m0 else m0 in
        let cut := (length m1 - 1)%nat in
        (if sg then [c_minus] else [])
          ++ firstn cut m1 ++ c_dot :: skipn cut m1
  | S754_zero _ => lit "0.0"
  | _ => toString x
  end.

(** The characters [0] to [9]. *)
Definition isDigit (c : char) : Prop := (48 <= c <= 57)%N.

(** The value of a digit in the given radix. *)
Definition digitValue (radix : Z) (c : char) : option Z :=
  let c := Z.of_N c in
  let v := if (48 <=? c) && (c <=? 57) then c - 48
           else if (97 <=? c) && (c <=? 122) then c - 87
           else if (65 <=? c) && (c <=? 90) then c - 55
           else radix in
  if v <? radix then Some v else None.

(** The integer read from the longest prefix of digits, and whether there
    was a digit at all. *)
Fixpoint readDigits (radix : Z) (s : jsstring) (seen : bool) (acc : Z)
  : option Z :=
  match s with
  | c :: s' =>
      match digitValue radix c with
      | Some d => readDigits radix s' true (acc * radix + d)
      | None => if seen then Some acc else None
      end
  | [] => if seen then Some acc else None
  end.

Fixpoint trimStart (s : jsstring) : jsstring :=
  match s with
  | c :: s' => if isSpace c then trimStart s' else s
  | [] => []
  end.

(** [parseInt(s)] with no radix argument; the integer that the digits spell
    is rounded to the nearest number. *)
Definition parseInt (s : jsstring) : number :=
  let s1 := trimStart s in
  let '(neg, s2) :=
    match s1 with
    | c :: r => if N.eqb c c_minus then (true, r)
                else if N.eqb c c_plus then (false, r) else (false, s1)
    | [] => (false, s1)
    end in
  let '(radix, s3) :=
    match s2 with
    | 48%N :: x :: r => if N.eqb x 120 || N.eqb x 88 then (16, r) else (10, s2)
    | _ => (10, s2)
    end in
  match readDigits radix s3 false 0 with
  | None => nan
  | Some 0 => if neg then neg_zero else zero
  | Some v => Z2F (if neg then - v else v)
  end.


(** ** Dates

    [parse] comes from the date-fns package, which is not part of the
    repository.  The program is modelled over any such function: a [Date] is
    either a time value in milliseconds or the Invalid Date, whose time value
    is NaN. *)

Definition Date := option Z.

Definition getTime (d : Date) : number :=
  match d with
  | Some t => Z2F t
  | None => nan
  end.

(** A model of date-fns's [parse] at the one format string of the program,
    [yyyyMMdd HH:mm:ss.SSS]: each numeric token reads one digit at least and
    as many as the token has letters at most, the other characters stand for
    themselves, what is left over must be white space, and the fields are
    checked against the calendar; when any of this fails the result is the
    Invalid Date, as the package documents.  [offset] is the zone of the
    machine in minutes, as [Date.prototype.getTimezoneOffset] has it.  The
    properties below are stated over any parser; this one serves as an
    instance, on strings that do not fit the format. *)
Module DateFns.

Fixpoint readUpTo (n : nat) (s : jsstring) (seen : bool) (acc : Z)
  : option (Z * jsstring) :=
  match n, s with
  | S n', c :: s' =>
      match digitValue 10 c with
      | Some d => readUpTo n' s' true (acc * 10 + d)
      | None => if seen then Some (acc, s) else None
      end
  | _, _ => if seen then Some (acc, s) else None
  end.

Definition expect (c : char) (s : jsstring) : option jsstring :=
  match s with
  | x :: s' => if N.eqb x c then Some s' else None
  | [] => None
  end.

Definition isLeap (y : Z) : bool :=
  (y mod 400 =? 0) || ((y mod 4 =? 0) && negb (y mod 100 =? 0)).

Definition daysInMonth (y m : Z) : Z :=
  if m =? 2 then (if isLeap y then 29 else 28)
  else if (m =? 4) || (m =? 6) || (m =? 9) || (m =? 11) then 30 else 31.

(** Days from 1970-01-01 to the given day of the proleptic Gregorian
    calendar. *)
Definition daysFromCivil (y m d : Z) : Z :=
  let y' := if m <=? 2 then y - 1 else y in
  let era := y' / 400 in
  let yoe := y' - era * 400 in
  let doy := (153 * (if 2 <? m then m - 3 else m + 9) + 2) / 5 + d - 1 in
  let doe := yoe * 365 + yoe / 4 - yoe / 100 + doy in
  era * 146097 + doe - 719468.

Definition parse (offset : Z) (s : jsstring) : Date :=
  match readUpTo 4 s false 0 with None => None | Some (y, s) =>
  match readUpTo 2 s false 0 with None => None | Some (mo, s) =>
  match readUpTo 2 s false 0 with None => None | Some (d, s) =>
  match expect 32%N s with None => None | Some s =>
  match readUpTo 2 s false 0 with None => None | Some (h, s) =>
  match expect 58%N s with None => None | Some s =>
  match readUpTo 2 s false 0 with None => None | Some (mi, s) =>
  match expect 58%N s with None => None | Some s =>
  match readUpTo 2 s false 0 with None => None | Some (sec, s) =>
  match expect 46%N s with None => None | Some s =>
  match readUpTo 3 s false 0 with None => None | Some (ms, s) =>
    if forallb isSpace s
       && (0 <? y) && (1 <=? mo) && (mo <=? 12)
       && (1 <=? d) && (d <=? daysInMonth y mo)
       && (h <=? 23) && (mi <=? 59) && (sec <=? 59)
    then Some (daysFromCivil y mo d * 86400000 + h * 3600000
               + (mi + offset) * 60000 + sec * 1000 + ms)
    else None
  end end end end end end end end end end end.

End DateFns.

(** ** The program state and its effects *)

Record field := { title : jsstring; value : jsstring; short : bool }.

Record attachment := {
  color : jsstring;
  text : jsstring;
  mrkdwn_in : list jsstring;
  ts : number;
  fields : list field
}.

(** The argument of [webhook.send]; [msg_text] is its [text] property. *)
Record message := {
  channel : jsstring;
  username : jsstring;
  icon_emoji : jsstring;
  msg_text : jsstring;
  attachments : list attachment
}.

Inductive level : Type := Info | Error.

(** What a run leaves behind: the lines logged through [core.info] and
    [core.error], whether [core.setFailed] was called, and the messages
    handed to the webhook, each list in the order of the calls. *)
Record world := {
  log : list (level * jsstring);
  failure : bool;
  outbox : list message
}.

Definition start : world := {| log := []; failure := false; outbox := [] |}.

(** A computation ends normally with a value or throws an error, of which the
    message is kept. *)
Inductive completion (A : Type) : Type :=
| Normal (a : A)
| Throw (msg : jsstring).
Arguments Throw {A} msg.

Definition M (A : Type) : Type := world -> completion A * world.

Definition ret {A} (a : A) : M A := fun w => (Normal a, w).

Definition bind {A B} (m : M A) (f : A -> M B) : M B :=
  fun w =>
    match m w with
    | (Normal a, w') => f a w'
    | (Throw e, w') => (Throw e, w')
    end.

Definition throw {A} (e : jsstring) : M A := fun w => (Throw e, w).

Definition tryCatch {A} (m : M A) (handler : jsstring -> M A) : M A :=
  fun w =>
    match m w with
    | (Throw e, w') => handler e w'
    | r => r
    end.

Declare Scope js_scope.
Delimit Scope js_scope with js.
Notation "x <- m ;; k" := (bind m (fun x => k))
  (at level 61, m at next level, right associativity) : js_scope.
Notation "m ;; k" := (bind m (fun _ => k))
  (at level 61, right associativity) : js_scope.
Local Open Scope js_scope.

Definition logLine (l : level) (msg : jsstring) : M unit :=
  fun w => (Normal tt, {| log := log w ++ [(l, msg)]; failure := failure w;
                          outbox := outbox w |}).

Definition core_info : jsstring -> M unit := logLine Info.
Definition core_error : jsstring -> M unit := logLine Error.

(** [core.setFailed] sets the exit code of the process to failure and logs
    the message as an error. *)
Definition core_setFailed (msg : jsstring) : M unit :=
  fun w => (Normal tt, {| log := log w ++ [(Error, msg)]; failure := true;
                          outbox := outbox w |}).

(** ** The class [RobotFrameworkResultsToSlack] *)

Record Stats := {
  passed : number;
  failed : number;
  skipped : number;
  successRate : number;
  timestamp : number
}.

(** The fields of the class, read from the inputs of the action when the
    object is built. *)
Record Config := {
  outputXmlPath : jsstring;
  slackWebhookUrl : jsstring;
  slackChannel : jsstring;
  slackUsername : jsstring;
  slackIcon : jsstring;
  slackHeader : jsstring;
  alertChannelOnFailure : bool;
  alertChannelOnSkipped : bool;
  alertChannelOnSuccess : bool;
  alertChannelOnNoOutput : bool;
  noOutputFoundMessage : jsstring
}.

(** What the program asks of its surroundings: [readFile] of a path gives the
    text or fails with an error (kept as the string the error prints as);
    the webhook at an address takes a message or fails with an error message;
    [runNumber] is [github.context.runNumber]; [parse] is date-fns's [parse]
    at the format string and reference date of the call. *)
Record Env := {
  readFile : jsstring -> jsstring + jsstring;
  webhookSend : jsstring -> message -> option jsstring;
  runNumber : number;
  parse : jsstring -> Date
}.

Definition green : jsstring := lit "#2EB67D".
Definition amber : jsstring := lit "#ECB22E".
Definition red : jsstring := lit "#E01E5A".

Section Program.

Variable cfg : Config.
Variable env : Env.

Definition sendSlackMessage (message : jsstring) (atts : list attachment)
  : M unit :=
  let m := {| channel := slackChannel cfg;
              username := slackUsername cfg;
              icon_emoji := slackIcon cfg;
              msg_text := message;
              attachments := atts |} in
  fun w =>
    let w' := {| log := log w; failure := failure w;
                 outbox := outbox w ++ [m] |} in
    match webhookSend env (slackWebhookUrl cfg) m with
    | None => (Normal tt, w')
    | Some e => (Throw e, w')
    end.

Definition getResults : M (option jsstring) :=
  match readFile env (outputXmlPath cfg) with
  | inr results => ret (Some results)
  | inl error =>
      core_error (lit "Error reading results file: " ++ error) ;;
      ret None
  end.

Definition getArgError (arg : jsstring) : jsstring :=
  lit "Error getting " ++ arg ++ lit " from XML".

Definition getArg (line arg : jsstring) : M jsstring :=
  match exec (argRe arg) line with
  | None => core_error (getArgError arg) ;; throw (getArgError arg)
  | Some m => ret m
  end.

Definition getStats (resultsXml : jsstring) : M (option Stats) :=
  match exec summaryRe resultsXml with
  | None => core_error (lit "Error getting stats from XML") ;; ret None
  | Some line =>
      pass <- getArg line (lit "pass") ;;
      let passed := parseInt pass in
      fail <- getArg line (lit "fail") ;;
      let failed := parseInt fail in
      skip <- getArg line (lit "skip") ;;
      let skipped := parseInt skip in
      let successRate :=
        parseInt (toFixed1 ((passed / (passed + failed + skipped)) * 100)%float) in
      let generated :=
        match exec generatedRe resultsXml with
        | Some g => g
        | None => []
        end in
      let timestamp := getTime (parse env generated) in
      ret (Some {| passed := passed; failed := failed; skipped := skipped;
                   successRate := successRate; timestamp := timestamp |})
  end.

Definition getColor (stats : Stats) : jsstring :=
  if (successRate stats =? 100)%float then green
  else if (80 <? successRate stats)%float then amber
  else red.

Definition statsAttachment (stats : Stats) : attachment :=
  {| color := getColor stats;
     text := slackHeader cfg;
     mrkdwn_in := [lit "text"; lit "fields"];
     ts := timestamp stats;
     fields :=
       [ {| title := lit "*Passed:*"; value := toString (passed stats);
            short := true |};
         {| title := lit "*Failed:*"; value := toString (failed stats);
            short := true |};
         {| title := lit "*Skipped:*"; value := toString (skipped stats);
            short := true |};
         {| title := lit "*Success Rate:*";
            value := toString (successRate stats) ++ lit "%";
            short := true |} ] |}.

Definition sendStats (stats : Stats) : M unit :=
  sendSlackMessage (lit "Robot Test Results #" ++ toString (runNumber env))
                   [statsAttachment stats].

Definition run : M unit :=
  core_info (lit "Running Robot Framework Results To Slack") ;;
  resultsXml <- getResults ;;
  match resultsXml with
  | None | Some [] =>
      if alertChannelOnNoOutput cfg
      then sendSlackMessage (noOutputFoundMessage cfg) []
      else ret tt
  | Some xml =>
      tryCatch
        (stats <- getStats xml ;;
         match stats with
         | None => core_setFailed (lit "Error getting stats from XML")
         | Some stats => sendStats stats
         end)
        (fun message => core_setFailed message)
  end.

End Program.

(** The status the process ends with: failure when [core.setFailed] was
    called, or when the promise of [run] is rejected and nothing handles it;
    success otherwise. *)
Definition exitCode (r : completion unit * world) : Z :=
  match r with
  | (Throw _, _) => 1
  | (Normal _, w) => if failure w then 1 else 0
  end.

(** ** Notions the properties are stated with *)

Definition openTag : jsstring := lit "<stat".
Definition closeTag : jsstring := lit ">All Tests</stat>".

(** A summary record: the opening [<stat], at least one character and no
    [>] up to the first [>], then [All Tests] and the closing tag. *)
Definition isSummaryRecord (line : jsstring) : Prop :=
  exists mid, line = openTag ++ mid ++ closeTag /\ mid <> []
              /\ Forall (fun c => c <> c_gt) mid.

Definition hasSummaryRecord (text : jsstring) : Prop :=
  exists pre line post, text = pre ++ line ++ post /\ isSummaryRecord line.

(** [occursIn p s]: [p] is a substring of [s]. *)
Definition occursIn (p s : jsstring) : Prop :=
  exists pre post, s = pre ++ p ++ post.

(** The record has a value that can be read for [arg]: somewhere in it
    [arg], [=] and a double quote are followed by a run of characters that is
    not empty and holds no white space, and by a double quote.  The name of
    the attribute that carries the value need only end with [arg], and the
    value may hold double quotes. *)
Definition hasValue (arg line : jsstring) : Prop :=
  exists v, v <> [] /\ Forall (fun c => isSpace c = false) v
            /\ occursIn (arg ++ [c_eq; c_quote] ++ v ++ [c_quote]) line.

Fixpoint occursInb (p s : jsstring) : bool :=
  starts_with p s ||
  match s with
  | [] => false
  | _ :: s' => occursInb p s'
  end.

(** An attribute as it is written in a record: the white space before it,
    its name and its value. *)
Record attr := { pad : jsstring; name : jsstring; val : jsstring }.

Definition renderAttr (a : attr) : jsstring :=
  pad a ++ name a ++ [c_eq; c_quote] ++ val a ++ [c_quote].

(** The record with the given attributes in the given order, and [trail]
    between the last of them and the [>]. *)
Definition render (attrs : list attr) (trail : jsstring) : jsstring :=
  openTag ++ concat (map renderAttr attrs) ++ trail ++ closeTag.

(** A character of a name or of a value: no white space, no double quote,
    no [=], no [>]. *)
Definition plain (c : char) : bool :=
  negb (isSpace c) && negb (N.eqb c c_quote) && negb (N.eqb c c_eq)
  && negb (N.eqb c c_gt).

Definition wfAttr (a : attr) : Prop :=
  pad a <> [] /\ Forall (fun c => isSpace c = true) (pad a)
  /\ Forall (fun c => plain c = true) (name a)
  /\ val a <> [] /\ Forall (fun c => plain c = true) (val a).

Definition endsWith (a s : jsstring) : bool := starts_with (rev a) (rev s).

(** The value of the first attribute whose name ends with [arg]. *)
Fixpoint lookupArg (arg : jsstring) (attrs : list attr) : option jsstring :=
  match attrs with
  | [] => None
  | x :: attrs' =>
      if endsWith arg (name x) then Some (val x) else lookupArg arg attrs'
  end.

(** The value of the first attribute named [arg]. *)
Fixpoint valueOf (arg : jsstring) (attrs : list attr) : option jsstring :=
  match attrs with
  | [] => None
  | x :: attrs' => if eqs arg (name x) then Some (val x) else valueOf arg attrs'
  end.

(** The outcome of a run as the specification names it: [Failed] when the
    run is marked failed or ends in an error, [Sent] when a message went to
    the webhook, [Skipped] otherwise. *)
Inductive NotificationOutcome : Type :=
| Skipped
| Sent (m : message)
| Failed (reason : jsstring).

Definition lastError (l : list (level * jsstring)) : jsstring :=
  match filter (fun e => match fst e with Error => true | Info => false end)
               (rev l) with
  | e :: _ => snd e
  | [] => []
  end.

Definition outcome (r : completion unit * world) : NotificationOutcome :=
  match r with
  | (Throw e, _) => Failed e
  | (Normal _, w) =>
      if failure w then Failed (lastError (log w))
      else match outbox w with
           | m :: _ => Sent m
           | [] => Skipped
           end
  end.

(** The string handed to [parse]: what the pattern for the generation stamp
    finds in the text, or the empty string when it finds nothing.  The
    pattern looks for the characters [generated=] and a double quote, not for
    an attribute of that name: it also finds them at the end of a longer
    name. *)
Definition generatedOf (text : jsstring) : jsstring :=
  match exec generatedRe text with
  | Some g => g
  | None => []
  end.

(** The message [sendStats] builds. *)
Definition statsMessage (cfg : Config) (env : Env) (stats : Stats) : message :=
  {| channel := slackChannel cfg;
     username := slackUsername cfg;
     icon_emoji := slackIcon cfg;
     msg_text := lit "Robot Test Results #" ++ toString (runNumber env);
     attachments := [statsAttachment cfg stats] |}.

(** The message sent when there is no report. *)
Definition noOutputMessage (cfg : Config) : message :=
  {| channel := slackChannel cfg;
     username := slackUsername cfg;
     icon_emoji := slackIcon cfg;
     msg_text := noOutputFoundMessage cfg;
     attachments := [] |}.

Definition runningLine : level * jsstring :=
  (Info, lit "Running Robot Framework Results To Slack").

Definition noStatsError : jsstring := lit "Error getting stats from XML".

(** What an extraction says about the counts: its result with the time
    stamp left out. *)
Definition counts (r : completion (option Stats))
  : completion (option (number * number * number * number)) :=
  match r with
  | Normal (Some st) =>
      Normal (Some (passed st, failed st, skipped st, successRate st))
  | Normal None => Normal None
  | Throw e => Throw e
  end.

Definition nameVal (x : attr) : jsstring * jsstring := (name x, val x).

(** The three arguments [getStats] reads, in the order it reads them. *)
Definition statArgs : list jsstring := [lit "pass"; lit "fail"; lit "skip"].

(** ** The start of the program

    The fields of the class are initialised from the inputs of the action, in
    the order of their declaration, when the object is built; the program
    then calls [run] on the object.  [core.getInput], given a name and
    whether the input is required, returns a string or throws. *)

Definition Inputs := jsstring -> bool -> completion jsstring.

Definition readInput (getInput : Inputs) (name : string) (required : bool)
  : M jsstring :=
  fun w => (getInput (lit name) required, w).

Definition construct (getInput : Inputs) : M Config :=
  outputXmlPath <- readInput getInput "output_xml_path" true ;;
  slackWebhookUrl <- readInput getInput "slack_webhook_url" true ;;
  slackChannel <- readInput getInput "slack_channel" true ;;
  slackUsername <- readInput getInput "slack_username" false ;;
  slackIcon <- readInput getInput "slack_icon" false ;;
  slackHeader <- readInput getInput "slack_header" false ;;
  onFailure <- readInput getInput "alert_channel_on_failure" false ;;
  onSkipped <- readInput getInput "alert_channel_on_skipped" false ;;
  onSuccess <- readInput getInput "alert_channel_on_success" false ;;
  onNoOutput <- readInput getInput "alert_channel_on_no_output" false ;;
  noOutputFoundMessage <- readInput getInput "no_output_found_message" false ;;
  ret {| outputXmlPath := outputXmlPath;
         slackWebhookUrl := slackWebhookUrl;
         slackChannel := slackChannel;
         slackUsername := slackUsername;
         slackIcon := slackIcon;
         slackHeader := slackHeader;
         alertChannelOnFailure := eqs onFailure (lit "true");
         alertChannelOnSkipped := eqs onSkipped (lit "true");
         alertChannelOnSuccess := eqs onSuccess (lit "true");
         alertChannelOnNoOutput := eqs onNoOutput (lit "true");
         noOutputFoundMessage := noOutputFoundMessage |}.

(** The last two statements of the file: build the object, call [run]. *)
Definition main (getInput : Inputs) (env : Env) : M unit :=
  cfg <- construct getInput ;;
  run cfg env.

(** The three inputs whose fields no method reads. *)
Definition idleSwitches : list jsstring :=
  [lit "alert_channel_on_failure"; lit "alert_channel_on_skipped";
   lit "alert_channel_on_success"].

(** The number a count is read as from an optional minus sign and the
    decimal digits of [q]. *)
Definition signedCount (negative : bool) (q : Z) : number :=
  match q with
  | 0%Z => if negative then neg_zero else zero
  | _ => Z2F (if negative then (- q)%Z else q)
  end.

(** What may follow the digits of a count without changing it: nothing, or
    a character that is no decimal digit and not the [x] of a hexadecimal
    prefix. *)
Definition endsCount (rest : jsstring) : Prop :=
  match rest with
  | [] => True
  | c :: _ => digitValue 10 c = None /\ c <> 120%N /\ c <> 88%N
  end.

(** [String.prototype.trim]. *)
Definition trim (s : jsstring) : jsstring :=
  rev (trimStart (rev (trimStart s))).

(** [core.getInput] over a table of the inputs that the workflow sets: an
    input that is not in the table is the empty string; a required input
    that is empty throws; the value is returned trimmed. *)
Definition tableInputs (table : list (string * string)) : Inputs :=
  fun name required =>
    let val := match find (fun e => eqs (lit (fst e)) name) table with
               | Some e => lit (snd e)
               | None => []
               end in
    match val with
    | [] =>
        if required
        then Throw (lit "Input required and not supplied: " ++ name)
        else Normal []
    | _ :: _ => Normal (trim val)
    end.

(** The rate [m * 2^e] in tenths: the integer nearest to ten times the
    rate, the larger of two that are equally near. *)
Definition tenths (m : positive) (e : Z) : Z :=
  let num := if (0 <=? e)%Z then (Z.pos m * 2 ^ e)%Z else Z.pos m in
  let den := if (0 <=? e)%Z then 1%Z else (2 ^ (- e))%Z in
  ((20 * num + den) / (2 * den))%Z.

(** The rate [m * 2^e] is below [10^21]. *)
Definition belowFixedLimit (m : positive) (e : Z) : Prop :=
  let num := if (0 <=? e)%Z then (Z.pos m * 2 ^ e)%Z else Z.pos m in
  let den := if (0 <=? e)%Z then 1%Z else (2 ^ (- e))%Z in
  (num < 10 ^ 21 * den)%Z.

(** The rate as [getStats] computes it from the three counts, before it is
    printed and read back. *)
Definition rawRate (passed failed skipped : number) : number :=
  (passed / (passed + failed + skipped) * 100)%float.

(** What the extraction returns for a text. *)
Definition extraction (env : Env) (text : jsstring) : completion (option Stats) :=
  fst (getStats env text start).

(** The value an input reads as, where reading it does not throw. *)
Definition inputValue (getInput : Inputs) (name : string) (required : bool)
  : jsstring :=
  match getInput (lit name) required with
  | Normal v => v
  | Throw _ => []
  end.

(** The configuration read from the inputs. *)
Definition configOf (getInput : Inputs) : Config :=
  {| outputXmlPath := inputValue getInput "output_xml_path" true;
     slackWebhookUrl := inputValue getInput "slack_webhook_url" true;
     slackChannel := inputValue getInput "slack_channel" true;
     slackUsername := inputValue getInput "slack_username" false;
     slackIcon := inputValue getInput "slack_icon" false;
     slackHeader := inputValue getInput "slack_header" false;
     alertChannelOnFailure :=
       eqs (inputValue getInput "alert_channel_on_failure" false) (lit "true");
     alertChannelOnSkipped :=
       eqs (inputValue getInput "alert_channel_on_skipped" false) (lit "true");
     alertChannelOnSuccess :=
       eqs (inputValue getInput "alert_channel_on_success" false) (lit "true");
     alertChannelOnNoOutput :=
       eqs (inputValue getInput "alert_channel_on_no_output" false)
           (lit "true");
     noOutputFoundMessage :=
       inputValue getInput "no_output_found_message" false |}.

(** No read of an input throws. *)
Definition allInputsRead (getInput : Inputs) : Prop :=
  forall name required, exists v, getInput name required = Normal v.

(** The inputs the fields are initialised from, in the order of their
    declaration, each with whether it is read as required. *)
Definition inputsRead : list (string * bool) :=
  [("output_xml_path", true); ("slack_webhook_url", true);
   ("slack_channel", true); ("slack_username", false);
   ("slack_icon", false); ("slack_header", false);
   ("alert_channel_on_failure", false); ("alert_channel_on_skipped", false);
   ("alert_channel_on_success", false); ("alert_channel_on_no_output", false);
   ("no_output_found_message", false)]%string.

(** ** Sample inputs *)

(** Inputs of a workflow that sets the three required inputs and the
    switches as given. *)
Definition sampleInputs (onFailure onSkipped onSuccess onNoOutput : string)
  : Inputs :=
  tableInputs
    [("output_xml_path", "results/output.xml");
     ("slack_webhook_url", "https://hooks.slack.com/services/T0/B0/X0");
     ("slack_channel", "#ci");
     ("alert_channel_on_failure", onFailure);
     ("alert_channel_on_skipped", onSkipped);
     ("alert_channel_on_success", onSuccess);
     ("alert_channel_on_no_output", onNoOutput);
     ("no_output_found_message", "No results found")]%string.

(** A configuration with the four alert switches as given. *)
Definition sampleConfig (onFailure onSkipped onSuccess onNoOutput : bool)
  : Config :=
  {| outputXmlPath := lit "results/output.xml";
     slackWebhookUrl := lit "https://hooks.slack.com/services/T0/B0/X0";
     slackChannel := lit "#ci";
     slackUsername := lit "robot";
     slackIcon := lit ":robot_face:";
     slackHeader := lit "Nightly suite";
     alertChannelOnFailure := onFailure;
     alertChannelOnSkipped := onSkipped;
     alertChannelOnSuccess := onSuccess;
     alertChannelOnNoOutput := onNoOutput;
     noOutputFoundMessage := lit "No results found" |}.

(** Surroundings in which reading the report gives [file], the webhook
    takes every message, the run has number 7 and the machine is on UTC. *)
Definition sampleEnv (file : jsstring + jsstring) : Env :=
  {| readFile := fun _ => file;
     webhookSend := fun _ _ => None;
     runNumber := 7%float;
     parse := DateFns.parse 0 |}.

(** The same surroundings with a webhook that refuses every message. *)
Definition refusingEnv (file : jsstring + jsstring) (why : jsstring) : Env :=
  {| readFile := fun _ => file;
     webhookSend := fun _ _ => Some why;
     runNumber := 7%float;
     parse := DateFns.parse 0 |}.

(** A report as Robot Framework writes it, around the given summary
    record. *)
Definition report (record : string) : jsstring :=
  xml ("<robot generator='Robot 6.1' generated='20231105 10:00:00.123'>"
       ++ "<suite id='s1' name='Smoke'><status status='PASS'/></suite>"
       ++ "<statistics><total>" ++ record ++ "</total></statistics></robot>").

(** The same report with another value for the [generated] attribute. *)
Definition stampedReport (stamp record : string) : jsstring :=
  xml ("<robot generator='Robot 6.1' generated='" ++ stamp ++ "'>"
       ++ "<suite id='s1' name='Smoke'><status status='PASS'/></suite>"
       ++ "<statistics><total>" ++ record ++ "</total></statistics></robot>").

(** The same report without the [generated] attribute. *)
Definition undatedReport (record : string) : jsstring :=
  xml ("<robot generator='Robot 6.1'>"
       ++ "<suite id='s1' name='Smoke'><status status='PASS'/></suite>"
       ++ "<statistics><total>" ++ record ++ "</total></statistics></robot>").

(** An attribute after one space. *)
Definition spaced (n v : string) : attr :=
  {| pad := [32%N]; name := lit n; val := lit v |}.

(** A short field of the attachment. *)
Definition shortField (t v : jsstring) : field :=
  {| title := t; value := v; short := true |}.

(** * Properties *)

Unset Implicit Arguments.

(** ** Strings and prefixes *)

Lemma strip_prefix_app (p r : jsstring) : strip_prefix p (p ++ r) = Some r.
Proof.
  induction p as [|x p IH]; simpl; [reflexivity|].
  now rewrite N.eqb_refl.
Qed.

Lemma strip_prefix_Some (p s r : jsstring) :
  strip_prefix p s = Some r -> s = p ++ r.
Proof.
  revert s; induction p as [|x p IH]; intros s; simpl.
  - now intros [= ->].
  - destruct s as [|y s]; [discriminate|].
    destruct (N.eqb_spec x y) as [->|]; [|discriminate].
    intros H; now rewrite (IH _ H).
Qed.

Lemma starts_with_app (p r : jsstring) : starts_with p (p ++ r) = true.
Proof. unfold starts_with; now rewrite strip_prefix_app. Qed.

Lemma starts_with_true (p s : jsstring) :
  starts_with p s = true -> exists r, s = p ++ r.
Proof.
  unfold starts_with; destruct (strip_prefix p s) as [r|] eqn:E; [|discriminate].
  intros _; exists r; now apply strip_prefix_Some.
Qed.

Lemma starts_with_cons (x y : char) (p s : jsstring) :
  starts_with (x :: p) (y :: s) = N.eqb x y && starts_with p s.
Proof. unfold starts_with; simpl; now destruct (N.eqb x y). Qed.

Lemma starts_with_nil_r (x : char) (p : jsstring) : starts_with (x :: p) [] = false.
Proof. reflexivity. Qed.

(** A prefix test that runs into a character it cannot contain is decided
    before that character. *)
Lemma starts_with_barrier (P : char -> bool) (x y z : jsstring) (w : char) :
  Forall (fun c => P c = false) x -> P w = true ->
  starts_with x (y ++ w :: z) = starts_with x y.
Proof.
  intros Hx Hw; revert y; induction Hx as [|c x Hc Hx IH]; intros y.
  - reflexivity.
  - destruct y as [|d y]; simpl app.
    + rewrite starts_with_cons, starts_with_nil_r.
      destruct (N.eqb_spec c w) as [->|]; [congruence|reflexivity].
    + now rewrite !starts_with_cons, IH.
Qed.

(** ** The matcher *)

Lemma greedy_stop (c : char -> bool) k (acc rest : jsstring) :
  match rest with [] => True | x :: _ => c x = false end ->
  greedy c k acc rest = None.
Proof. destruct rest as [|x rest]; simpl; [easy|]; now intros ->. Qed.

(** The loop hands to the continuation a non-empty run of the class. *)
Lemma greedy_sound (c : char -> bool) k (rest acc m : jsstring) :
  greedy c k acc rest = Some m ->
  exists u v, rest = u ++ v /\ u <> [] /\ Forall (fun x => c x = true) u
              /\ k (rev u ++ acc) v = Some m.
Proof.
  revert acc; induction rest as [|x rest IH]; intros acc; simpl; [discriminate|].
  destruct (c x) eqn:Hx; [|discriminate].
  destruct (greedy c k (x :: acc) rest) as [m'|] eqn:G.
  - intros [= ->]. destruct (IH _ G) as (u & v & -> & _ & Hu & Hk).
    exists (x :: u), v; repeat split; [easy|now constructor|].
    simpl; now rewrite <- app_assoc.
  - intros Hk; exists [x], rest; repeat split; [easy|now repeat constructor|easy].
Qed.

(** When the continuation accepts the whole run, the loop returns what it
    returns there: the longest run is tried first. *)
Lemma greedy_longest (c : char -> bool) k (u v acc m : jsstring) :
  u <> [] -> Forall (fun x => c x = true) u ->
  match v with [] => True | x :: _ => c x = false end ->
  k (rev u ++ acc) v = Some m ->
  greedy c k acc (u ++ v) = Some m.
Proof.
  intros Hne Hu Hv; revert acc; induction Hu as [|x u Hx Hu IH]; [easy|].
  intros acc Hk; simpl; rewrite Hx.
  destruct u as [|y u].
  - simpl; rewrite (greedy_stop c k (x :: acc) v Hv). exact Hk.
  - rewrite IH; [reflexivity|easy|].
    simpl in *; now rewrite <- !app_assoc in *.
Qed.

(** When the continuation accepts some run of the class, the loop returns a
    match: it falls back from the longest run to shorter ones. *)
Lemma greedy_complete (c : char -> bool) k (u v acc m : jsstring) :
  u <> [] -> Forall (fun x => c x = true) u ->
  k (rev u ++ acc) v = Some m ->
  exists m', greedy c k acc (u ++ v) = Some m'.
Proof.
  intros Hne Hu; revert acc; induction Hu as [|x u Hx Hu IH]; [easy|].
  intros acc Hk; simpl; rewrite Hx.
  destruct u as [|y u].
  - simpl in *; destruct (greedy c k (x :: acc) v) as [m'|]; eauto.
  - destruct (IH ltac:(easy) (x :: acc)) as [m' Hm'].
    + simpl in *; now rewrite <- !app_assoc in *.
    + rewrite Hm'; eauto.
Qed.

Lemma execFrom_sound (r : regex) (rest before m : jsstring) :
  execFrom r before rest = Some m ->
  exists u v, rest = u ++ v /\ matchHere r (rev u ++ before) [] v = Some m.
Proof.
  revert before; induction rest as [|x rest IH]; intros before; simpl.
  - destruct (matchHere r before [] []) eqn:E; [|discriminate].
    intros [= ->]; now exists [], [].
  - destruct (matchHere r before [] (x :: rest)) eqn:E.
    + intros [= ->]; now exists [], (x :: rest).
    + intros H; destruct (IH _ H) as (u & v & -> & Hm).
      exists (x :: u), v; split; [reflexivity|].
      simpl; now rewrite <- app_assoc.
Qed.

Lemma execFrom_hit (r : regex) (before rest m : jsstring) :
  matchHere r before [] rest = Some m -> execFrom r before rest = Some m.
Proof. destruct rest; simpl; now intros ->. Qed.

Lemma execFrom_end (r : regex) (before : jsstring) :
  matchHere r before [] [] = None -> execFrom r before [] = None.
Proof. simpl; now intros ->. Qed.

(** The search finds a match as soon as some position has one. *)
Lemma execFrom_complete (r : regex) (u v before m : jsstring) :
  matchHere r (rev u ++ before) [] v = Some m ->
  exists m', execFrom r before (u ++ v) = Some m'.
Proof.
  revert before; induction u as [|x u IH]; intros before H.
  - exists m; now apply execFrom_hit.
  - simpl app; cbn [execFrom].
    destruct (matchHere r before [] (x :: u ++ v)) as [m'|]; [now exists m'|].
    apply IH; simpl in H; now rewrite <- app_assoc in H.
Qed.

Lemma execFrom_miss (r : regex) (before rest : jsstring) (x : char) :
  matchHere r before [] (x :: rest) = None ->
  execFrom r before (x :: rest) = execFrom r (x :: before) rest.
Proof. simpl; now intros ->. Qed.

(** The search passes over the positions at which the pattern fails. *)
Lemma execFrom_skip (r : regex) (u rest before : jsstring) :
  (forall u1 u2, u = u1 ++ u2 -> u2 <> [] ->
                 matchHere r (rev u1 ++ before) [] (u2 ++ rest) = None) ->
  execFrom r before (u ++ rest) = execFrom r (rev u ++ before) rest.
Proof.
  revert before; induction u as [|x u IH]; intros before H; [reflexivity|].
  simpl app. cbn [execFrom].
  pose proof (H [] (x :: u) eq_refl ltac:(easy)) as H0.
  simpl in H0; rewrite H0.
  rewrite IH.
  - simpl; now rewrite <- app_assoc.
  - intros u1 u2 -> Hne.
    specialize (H (x :: u1) u2 eq_refl Hne).
    simpl in H; now rewrite <- app_assoc in H.
Qed.

(** ** The summary pattern *)

Lemma matchHere_summaryRe (before rest : jsstring) :
  matchHere summaryRe before [] rest =
  match strip_prefix openTag rest with
  | Some rest' =>
      greedy (fun c => negb (N.eqb c c_gt))
        (fun acc r =>
           match strip_prefix closeTag r with
           | Some _ => Some (rev (rev closeTag ++ acc))
           | None => None
           end)
        (rev openTag) rest'
  | None => None
  end.
Proof. reflexivity. Qed.

(** What the summary pattern finds is a summary record of the text. *)
Lemma exec_summaryRe_sound (text line : jsstring) :
  exec summaryRe text = Some line ->
  exists pre post, text = pre ++ line ++ post /\ isSummaryRecord line.
Proof.
  intros H; apply execFrom_sound in H; destruct H as (u & v & -> & H).
  rewrite matchHere_summaryRe in H.
  destruct (strip_prefix openTag v) as [r|] eqn:E1; [|discriminate].
  apply strip_prefix_Some in E1; subst v.
  apply greedy_sound in H; destruct H as (mid & v2 & -> & Hne & Hmid & H).
  destruct (strip_prefix closeTag v2) as [post|] eqn:E2; [|discriminate].
  apply strip_prefix_Some in E2; subst v2.
  assert (E : line = openTag ++ mid ++ closeTag).
  { assert (E : rev (rev closeTag ++ rev mid ++ rev openTag) = line)
      by congruence.
    rewrite <- E, !rev_app_distr, !rev_involutive.
    now rewrite <- app_assoc. }
  subst line; clear H.
  exists u, post; split.
  - now rewrite <- !app_assoc.
  - exists mid; split; [reflexivity|split; [exact Hne|]].
    eapply Forall_impl; [|exact Hmid]; simpl; intros c Hc ->.
    discriminate.
Qed.

(** A text with a summary record in it is matched. *)
Lemma exec_summaryRe_complete (text : jsstring) :
  hasSummaryRecord text -> exists line, exec summaryRe text = Some line.
Proof.
  intros (pre & line & post & -> & mid & -> & Hne & Hmid).
  unfold exec; generalize (@nil char) as before.
  induction pre as [|x pre IH]; intros before.
  - assert (exists m, matchHere summaryRe before []
                        ((openTag ++ mid ++ closeTag) ++ post) = Some m)
      as [m Hm].
    { rewrite matchHere_summaryRe, <- !app_assoc, strip_prefix_app.
      eexists; apply greedy_longest; [exact Hne| |reflexivity|].
      - eapply Forall_impl; [|exact Hmid]; simpl; intros c Hc.
        destruct (N.eqb_spec c c_gt); [contradiction|reflexivity].
      - now rewrite strip_prefix_app. }
    exists m; now apply execFrom_hit.
  - simpl app; cbn [execFrom].
    destruct (matchHere summaryRe before [] _) as [m|]; [now exists m|].
    apply IH.
Qed.

Lemma exec_summaryRe_None (text : jsstring) :
  ~ hasSummaryRecord text -> exec summaryRe text = None.
Proof.
  intros H; destruct (exec summaryRe text) as [line|] eqn:E; [|reflexivity].
  exfalso; apply H. apply exec_summaryRe_sound in E.
  destruct E as (pre & post & -> & Hl); now exists pre, line, post.
Qed.

Lemma exec_summaryRe_nonempty (text line : jsstring) :
  exec summaryRe text = Some line -> text <> [].
Proof. intros H ->; discriminate. Qed.

(** ** The attribute pattern *)

Lemma matchHere_argRe (a before rest : jsstring) :
  matchHere (argRe a) before [] rest =
  if starts_with (c_quote :: c_eq :: rev a) before
  then greedy (fun c => negb (isSpace c))
         (fun acc r => if starts_with [c_quote] r then Some (rev acc) else None)
         [] rest
  else None.
Proof. cbn [matchHere argRe]; now rewrite rev_app_distr. Qed.

(** The pattern can only match right after [=] and a double quote. *)
Lemma matchHere_argRe_away (a before rest : jsstring) :
  starts_with [c_quote; c_eq] before = false ->
  matchHere (argRe a) before [] rest = None.
Proof.
  intros H; rewrite matchHere_argRe.
  destruct before as [|x [|y b]]; [reflexivity| |].
  - rewrite starts_with_cons, starts_with_nil_r, andb_false_r; reflexivity.
  - rewrite !starts_with_cons in *.
    destruct (N.eqb c_quote x); [|reflexivity].
    destruct (N.eqb c_eq y); [discriminate|reflexivity].
Qed.

Lemma starts_with_quote_head (x : char) (b : jsstring) :
  x <> c_quote -> starts_with [c_quote; c_eq] (x :: b) = false.
Proof.
  intros H; rewrite starts_with_cons.
  destruct (N.eqb_spec c_quote x); [congruence|reflexivity].
Qed.

(** The pattern finds a value exactly in the records that have one that can
    be read. *)
Lemma exec_argRe_hasValue (a line : jsstring) :
  exec (argRe a) line <> None <-> hasValue a line.
Proof.
  split.
  - destruct (exec (argRe a) line) as [m|] eqn:E; [intros _|easy].
    apply execFrom_sound in E; destruct E as (u & rest & -> & H).
    rewrite matchHere_argRe, app_nil_r in H.
    destruct (starts_with _ (rev u)) eqn:S; [|discriminate].
    apply starts_with_true in S; destruct S as [r S].
    apply greedy_sound in H; destruct H as (v & rest' & -> & Hne & Hv & H).
    destruct (starts_with [c_quote] rest') eqn:Q; [|discriminate].
    apply starts_with_true in Q; destruct Q as [post ->].
    exists v; split; [exact Hne|split].
    + eapply Forall_impl; [|exact Hv]; intros c Hc.
      now apply negb_true_iff in Hc.
    + exists (rev r), post.
      apply (f_equal (@rev char)) in S; rewrite rev_involutive in S.
      rewrite S; change (c_quote :: c_eq :: rev a)
        with ([c_quote; c_eq] ++ rev a).
      rewrite !rev_app_distr, rev_involutive; simpl.
      rewrite <- !app_assoc; simpl; now rewrite <- !app_assoc.
  - intros (v & Hne & Hv & pre & post & ->).
    assert (Hm : exists m,
               matchHere (argRe a) (rev (pre ++ a ++ [c_eq; c_quote]) ++ [])
                         [] (v ++ [c_quote] ++ post) = Some m).
    { rewrite matchHere_argRe, app_nil_r, !rev_app_distr.
      change (rev [c_eq; c_quote]) with [c_quote; c_eq].
      change (c_quote :: c_eq :: rev a) with ([c_quote; c_eq] ++ rev a).
      rewrite starts_with_app.
      eapply (greedy_complete _ _ v ([c_quote] ++ post) []); [exact Hne| |].
      - eapply Forall_impl; [|exact Hv]; intros c Hc; cbv beta.
        now rewrite Hc.
      - cbv beta; rewrite starts_with_app; eauto. }
    destruct Hm as [m Hm].
    destruct (execFrom_complete (argRe a) (pre ++ a ++ [c_eq; c_quote])
                (v ++ [c_quote] ++ post) [] m Hm) as [m' Hm'].
    unfold exec.
    replace (pre ++ (a ++ [c_eq; c_quote] ++ v ++ [c_quote]) ++ post)
      with ((pre ++ a ++ [c_eq; c_quote]) ++ v ++ [c_quote] ++ post)
      by (now rewrite <- !app_assoc).
    rewrite Hm'; discriminate.
Qed.

Lemma occursInb_spec (p s : jsstring) :
  occursInb p s = true <-> occursIn p s.
Proof.
  split.
  - induction s as [|x s IH]; simpl; rewrite orb_true_iff.
    + intros [H|H]; [|discriminate].
      apply starts_with_true in H; destruct H as [r ->]; now exists [], r.
    + intros [H|H].
      * apply starts_with_true in H; destruct H as [r ->]; now exists [], r.
      * destruct (IH H) as (pre & post & ->); now exists (x :: pre), post.
  - intros (pre & post & ->); induction pre as [|x pre IH]; simpl app.
    + destruct (p ++ post) eqn:E; simpl; rewrite <- E, starts_with_app;
        reflexivity.
    + simpl; rewrite IH; apply orb_true_r.
Qed.

Lemma no_quote_ahead (tail rest : jsstring) :
  Forall (fun c => isSpace c = false /\ c <> c_quote) tail ->
  match rest with [] => True | x :: _ => isSpace x = true end ->
  starts_with [c_quote] (tail ++ rest) = false.
Proof.
  intros Ht Hr; destruct Ht as [|t tail [_ Hq] _]; simpl app.
  - destruct rest as [|x rest]; [reflexivity|].
    rewrite starts_with_cons.
    destruct (N.eqb_spec c_quote x) as [Hx|]; [|reflexivity].
    subst x; discriminate.
  - rewrite starts_with_cons.
    destruct (N.eqb_spec c_quote t); [congruence|reflexivity].
Qed.

(** Past a value and its closing quote the loop finds no other quote before
    the next white space. *)
Lemma greedy_no_quote (tail rest acc : jsstring) :
  Forall (fun c => isSpace c = false /\ c <> c_quote) tail ->
  match rest with [] => True | x :: _ => isSpace x = true end ->
  greedy (fun c => negb (isSpace c))
    (fun acc r => if starts_with [c_quote] r then Some (rev acc) else None)
    acc (tail ++ rest) = None.
Proof.
  intros Ht Hr; revert acc; induction Ht as [|t tail [Ht1 Ht2] Ht IH]; intros acc.
  - apply greedy_stop; simpl; destruct rest as [|x rest]; [easy|now rewrite Hr].
  - simpl; rewrite Ht1; simpl; rewrite IH.
    now rewrite no_quote_ahead.
Qed.

Lemma greedy_at_quote (tail rest acc : jsstring) :
  Forall (fun c => isSpace c = false /\ c <> c_quote) tail ->
  match rest with [] => True | x :: _ => isSpace x = true end ->
  greedy (fun c => negb (isSpace c))
    (fun acc r => if starts_with [c_quote] r then Some (rev acc) else None)
    acc (c_quote :: tail ++ rest) = None.
Proof.
  intros Ht Hr. cbn [greedy].
  replace (negb (isSpace c_quote)) with true by reflexivity.
  rewrite greedy_no_quote by assumption.
  now rewrite no_quote_ahead.
Qed.

(** The loop, started on a value, returns the value: it runs on to the next
    white space and comes back to the closing quote. *)
Lemma greedy_value (v tail rest acc : jsstring) :
  v <> [] ->
  Forall (fun c => isSpace c = false /\ c <> c_quote) v ->
  Forall (fun c => isSpace c = false /\ c <> c_quote) tail ->
  match rest with [] => True | x :: _ => isSpace x = true end ->
  greedy (fun c => negb (isSpace c))
    (fun acc r => if starts_with [c_quote] r then Some (rev acc) else None)
    acc (v ++ c_quote :: tail ++ rest) = Some (rev acc ++ v).
Proof.
  intros Hne Hv Ht Hr; revert acc.
  induction Hv as [|x v [Hx1 Hx2] Hv IH]; [easy|]; intros acc.
  cbn [greedy app]; rewrite Hx1; cbn [negb].
  destruct v as [|y v].
  - cbn [app]; rewrite greedy_at_quote by assumption.
    now rewrite starts_with_cons, N.eqb_refl.
  - rewrite IH by easy. simpl; now rewrite <- app_assoc.
Qed.

(** ** Records written attribute by attribute *)

Lemma plain_inv (c : char) :
  plain c = true ->
  isSpace c = false /\ c <> c_quote /\ c <> c_eq /\ c <> c_gt.
Proof.
  unfold plain; rewrite !andb_true_iff, !negb_true_iff.
  intros [[[H1 H2] H3] H4]; repeat split; try assumption;
    intros ->; discriminate.
Qed.

Lemma space_not_quote (c : char) : isSpace c = true -> c <> c_quote.
Proof. intros H ->; discriminate. Qed.

Lemma split_before_last (u u1 u2 : jsstring) (z : char) :
  u ++ [z] = u1 ++ u2 -> u2 <> [] -> exists u2', u = u1 ++ u2'.
Proof.
  intros E Hne; destruct (exists_last Hne) as (u2' & z' & ->).
  rewrite app_assoc in E; apply app_inj_tail in E; destruct E as [-> _].
  now exists u2'.
Qed.

(** Inside a stretch of text without a double quote the attribute pattern
    has nowhere to start. *)
Lemma away_inside (u before u1 u2 : jsstring) :
  Forall (fun c => c <> c_quote) u ->
  starts_with [c_quote; c_eq] before = false ->
  u = u1 ++ u2 ->
  starts_with [c_quote; c_eq] (rev u1 ++ before) = false.
Proof.
  intros Hu Hb ->; destruct u1 as [|x u1] using rev_ind; [exact Hb|].
  rewrite rev_app_distr; simpl; apply starts_with_quote_head.
  apply Forall_app in Hu; destruct Hu as [Hu _].
  apply Forall_app in Hu; destruct Hu as [_ Hu].
  now inversion Hu.
Qed.

Lemma execFrom_argRe_skip (a u rest before : jsstring) :
  Forall (fun c => c <> c_quote) u ->
  starts_with [c_quote; c_eq] before = false ->
  execFrom (argRe a) before (u ++ rest)
  = execFrom (argRe a) (rev u ++ before) rest.
Proof.
  intros Hu Hb; apply execFrom_skip; intros u1 u2 E _.
  apply matchHere_argRe_away; now apply away_inside with (u := u) (u2 := u2).
Qed.

(** What follows a value: nothing but plain characters up to the next white
    space. *)
Lemma after_value (attrs : list attr) (trail : jsstring) :
  Forall wfAttr attrs -> Forall (fun c => isSpace c = true) trail ->
  exists tail rest,
    concat (map renderAttr attrs) ++ trail ++ closeTag = tail ++ rest
    /\ Forall (fun c => isSpace c = false /\ c <> c_quote) tail
    /\ match rest with [] => True | x :: _ => isSpace x = true end.
Proof.
  intros Ha Ht; destruct Ha as [|x attrs (Hp & Hs & _) _].
  - destruct Ht as [|w trail Hw _].
    + exists (lit ">All"), (lit " Tests</stat>"); split; [reflexivity|].
      split; [|reflexivity].
      repeat constructor; discriminate.
    + exists [], (w :: trail ++ closeTag); now repeat split.
  - destruct (pad x) as [|w p] eqn:E; [contradiction|].
    exists [], (concat (map renderAttr (x :: attrs)) ++ trail ++ closeTag).
    split; [reflexivity|split; [constructor|]].
    cbn [map concat]; unfold renderAttr at 1; rewrite E; simpl.
    now inversion Hs.
Qed.

Lemma closeTag_no_quote : Forall (fun c => c <> c_quote) closeTag.
Proof. repeat constructor; discriminate. Qed.

(** The scan of a record for [arg]: the search stops at the first attribute
    whose name ends with [arg] and returns its value. *)
Lemma execFrom_argRe_attrs (a : jsstring) (attrs : list attr)
      (trail before : jsstring) :
  Forall (fun c => isSpace c = false) a ->
  Forall wfAttr attrs ->
  Forall (fun c => isSpace c = true) trail ->
  starts_with [c_quote; c_eq] before = false ->
  execFrom (argRe a) before (concat (map renderAttr attrs) ++ trail ++ closeTag)
  = lookupArg a attrs.
Proof.
  intros Ha Hattrs Ht; revert before.
  induction Hattrs as [|x attrs Hx Hattrs IH]; intros before Hb.
  - cbn [map concat app lookupArg].
    rewrite <- (app_nil_r (trail ++ closeTag)), execFrom_argRe_skip; trivial.
    + apply execFrom_end; rewrite matchHere_argRe.
      destruct (starts_with (c_quote :: c_eq :: rev a) _); reflexivity.
    + apply Forall_app; split; [|exact closeTag_no_quote].
      eapply Forall_impl; [|exact Ht]; apply space_not_quote.
  - pose proof (after_value attrs trail Hattrs Ht) as (tail & rest & Erest & Htail & Hrest).
    destruct Hx as (Hp & Hs & Hn & Hv & Hvs).
    cbn [map concat lookupArg]; rewrite <- app_assoc; unfold renderAttr at 1.
    set (REST := concat (map renderAttr attrs) ++ trail ++ closeTag) in *.
    replace ((pad x ++ name x ++ [c_eq; c_quote] ++ val x ++ [c_quote]) ++ REST)
      with (((pad x ++ name x ++ [c_eq]) ++ [c_quote])
              ++ val x ++ c_quote :: REST)
      by (repeat (rewrite <- app_assoc; cbn [app]); reflexivity).
    assert (Hpn : Forall (fun c => c <> c_quote) (pad x ++ name x ++ [c_eq])).
    { apply Forall_app; split.
      - eapply Forall_impl; [|exact Hs]; apply space_not_quote.
      - apply Forall_app; split; [|repeat constructor; discriminate].
        eapply Forall_impl; [|exact Hn]; intros c Hc; now apply plain_inv in Hc. }
    rewrite execFrom_skip.
    2:{ intros u1 u2 E Hne; apply matchHere_argRe_away.
        destruct (split_before_last _ _ _ _ E Hne) as [u2' E'].
        now apply away_inside with (u := pad x ++ name x ++ [c_eq]) (u2 := u2'). }
    rewrite !rev_app_distr; simpl rev; cbn [app]; rewrite <- !app_assoc.
    assert (Hlook : starts_with (c_quote :: c_eq :: rev a)
                      (c_quote :: c_eq :: rev (name x) ++ rev (pad x) ++ before)
                    = endsWith a (name x)).
    { rewrite !starts_with_cons, !N.eqb_refl; cbn [andb].
      destruct (exists_last Hp) as (p & w & Ew).
      rewrite Ew, rev_app_distr; simpl; rewrite Ew in Hs.
      apply Forall_app in Hs; destruct Hs as [_ Hw]; inversion Hw; subst.
      apply starts_with_barrier with (P := isSpace); [|assumption].
      now apply Forall_rev. }
    destruct (endsWith a (name x)) eqn:Eends.
    + apply execFrom_hit; rewrite matchHere_argRe, Hlook.
      subst REST; rewrite Erest.
      rewrite greedy_value; trivial.
      eapply Forall_impl; [|exact Hvs]; intros c Hc; now apply plain_inv in Hc.
    + replace (val x ++ c_quote :: REST) with ((val x ++ [c_quote]) ++ REST)
        by now rewrite <- app_assoc.
      assert (Hval : Forall (fun c => c <> c_quote) (val x)).
      { eapply Forall_impl; [|exact Hvs]; intros c Hc; now apply plain_inv in Hc. }
      rewrite execFrom_skip.
      2:{ intros u1 u2 E Hne.
          destruct (split_before_last _ _ _ _ E Hne) as [u2' E'].
          destruct u1 as [|z u1] using rev_ind.
          - cbn [rev app]; rewrite matchHere_argRe, Hlook; reflexivity.
          - apply matchHere_argRe_away; rewrite rev_app_distr; simpl.
            apply starts_with_quote_head.
            rewrite E' in Hval; apply Forall_app in Hval; destruct Hval as [Hval _].
            apply Forall_app in Hval; destruct Hval as [_ Hval]; now inversion Hval. }
      rewrite rev_app_distr; simpl rev; cbn [app].
      apply IH.
      destruct (exists_last Hv) as (v & z & Ez).
      rewrite Ez, rev_app_distr; simpl.
      rewrite !starts_with_cons, N.eqb_refl; cbn [andb].
      rewrite Ez in Hvs; apply Forall_app in Hvs; destruct Hvs as [_ Hz].
      inversion Hz; subst.
      destruct (N.eqb_spec c_eq z) as [Hz'|]; [|reflexivity].
      subst z; discriminate.
Qed.

(** [getArg]'s search in a record written attribute by attribute. *)
Lemma exec_argRe_render (a : jsstring) (attrs : list attr) (trail : jsstring) :
  Forall (fun c => isSpace c = false) a ->
  Forall wfAttr attrs ->
  Forall (fun c => isSpace c = true) trail ->
  exec (argRe a) (render attrs trail) = lookupArg a attrs.
Proof.
  intros Ha Hattrs Ht; unfold exec, render.
  rewrite execFrom_argRe_skip; [|repeat constructor; discriminate|reflexivity].
  apply execFrom_argRe_attrs; trivial.
Qed.

(** ** Numbers *)

Local Open Scope float_scope.

Lemma nan_add_l (y : number) : nan + y = nan.
Proof. apply Prim2SF_inj; rewrite add_spec; reflexivity. Qed.

Lemma nan_add_r (x : number) : x + nan = nan.
Proof.
  apply Prim2SF_inj; rewrite add_spec.
  change (Prim2SF nan) with S754_nan.
  destruct (Prim2SF x) as [[]|[]| |]; reflexivity.
Qed.

Lemma nan_div_l (y : number) : nan / y = nan.
Proof. apply Prim2SF_inj; rewrite div_spec; reflexivity. Qed.

Lemma nan_div_r (x : number) : x / nan = nan.
Proof.
  apply Prim2SF_inj; rewrite div_spec.
  change (Prim2SF nan) with S754_nan.
  destruct (Prim2SF x) as [[]|[]| |]; reflexivity.
Qed.

Lemma nan_mul_l (y : number) : nan * y = nan.
Proof. apply Prim2SF_inj; rewrite mul_spec; reflexivity. Qed.

(** A rate computed from counts of which one is NaN is NaN. *)
Lemma rate_nan (p f s : number) :
  p = nan \/ f = nan \/ s = nan -> p / (p + f + s) * 100 = nan.
Proof.
  intros [->|[->| ->]].
  - now rewrite nan_div_l, nan_mul_l.
  - now rewrite nan_add_r, nan_add_l, nan_div_r, nan_mul_l.
  - now rewrite nan_add_r, nan_div_r, nan_mul_l.
Qed.

Lemma SFcompare_antisym (x y : spec_float) (c : comparison) :
  SFcompare x y = Some c -> SFcompare y x = Some (CompOpp c).
Proof.
  destruct x as [sx|sx| |sx mx ex], y as [sy|sy| |sy my ey]; simpl;
    try discriminate;
    try (intros [= <-]; destruct sx; try destruct sy; reflexivity);
    try (intros [= <-]; destruct sy; reflexivity).
  intros [= <-]; f_equal.
  destruct sx, sy; try reflexivity; rewrite (Z.compare_antisym ex ey);
    destruct (ex ?= ey)%Z eqn:E; simpl; try reflexivity;
    change (PosDef.Pos.compare_cont Eq my mx) with (Pos.compare my mx);
    change (PosDef.Pos.compare_cont Eq mx my) with (Pos.compare mx my);
    rewrite (Pos.compare_antisym mx my); destruct (mx ?= my)%positive;
    reflexivity.
Qed.

Lemma SFcompare_None (x y : spec_float) :
  SFcompare x y = None -> x = S754_nan \/ y = S754_nan.
Proof.
  destruct x as [sx|sx| |sx mx ex], y as [sy|sy| |sy my ey]; simpl;
    try discriminate; auto.
Qed.

(** Equality with a finite number other than zero is equality of the
    values. *)
Lemma SFcompare_Eq_finite (x : spec_float) (sg : bool) (m : positive) (e : Z) :
  SFcompare x (S754_finite sg m e) = Some Eq -> x = S754_finite sg m e.
Proof.
  destruct x as [sx|sx| |sx mx ex]; simpl; try discriminate.
  - destruct sg; discriminate.
  - destruct sx, sg; discriminate.
  - destruct sx, sg; try discriminate;
      destruct (ex ?= e)%Z eqn:E; try discriminate;
      apply Z.compare_eq in E; subst ex;
      change (PosDef.Pos.compare_cont Eq mx m) with (Pos.compare mx m);
      destruct (mx ?= m)%positive eqn:E'; try discriminate;
      apply Pos.compare_eq in E'; now subst mx.
Qed.

Lemma eqb_finite (x y : number) (sg : bool) (m : positive) (e : Z) :
  Prim2SF y = S754_finite sg m e -> (x =? y) = true -> x = y.
Proof.
  intros Hy H; rewrite eqb_spec in H; unfold SFeqb in H.
  apply Prim2SF_inj; rewrite Hy in *.
  destruct (SFcompare (Prim2SF x) (S754_finite sg m e)) as [[]|] eqn:E;
    try discriminate.
  now apply SFcompare_Eq_finite.
Qed.

(** A number that is above 80, is not 100 and does not exceed 100 is
    below 100. *)
Lemma below_100 (r : number) :
  (100 <? r) = false -> (r =? 100) = false -> (80 <? r) = true ->
  (r <? 100) = true.
Proof.
  rewrite !ltb_spec, eqb_spec; unfold SFltb, SFeqb.
  intros H1 H2 H3.
  destruct (SFcompare (Prim2SF r) (Prim2SF 100)) as [[]|] eqn:E;
    try discriminate; try reflexivity.
  - apply SFcompare_antisym in E; simpl in E; rewrite E in H1; discriminate.
  - apply SFcompare_None in E; destruct E as [E|E]; [|discriminate].
    rewrite E in H3.
    destruct (Prim2SF 80) as [[]|[]| |]; discriminate.
Qed.

Lemma not_both_100 (r : number) :
  (r =? 100) = true -> (r <? 100) = false.
Proof.
  rewrite ltb_spec, eqb_spec; unfold SFltb, SFeqb.
  now destruct (SFcompare (Prim2SF r) (Prim2SF 100)) as [[]|].
Qed.

(** A number above 80 that is not 100 is below 100 or above it. *)
Lemma apart_from_100 (r : number) :
  (r =? 100) = false -> (80 <? r) = true ->
  (r <? 100) = true \/ (100 <? r) = true.
Proof.
  rewrite !ltb_spec, eqb_spec; unfold SFltb, SFeqb.
  intros H2 H3.
  destruct (SFcompare (Prim2SF r) (Prim2SF 100)) as [[]|] eqn:E;
    try discriminate.
  - now left.
  - right; apply SFcompare_antisym in E; simpl in E; now rewrite E.
  - apply SFcompare_None in E; destruct E as [E|E]; [|discriminate].
    rewrite E in H3.
    destruct (Prim2SF 80) as [[]|[]| |]; discriminate.
Qed.

(** A number above 100 is above 80, is not 100 and is not below 100. *)
Lemma above_100 (r : number) :
  (100 <? r) = true ->
  (80 <? r) = true /\ (r =? 100) = false /\ (r <? 100) = false.
Proof.
  rewrite !ltb_spec, eqb_spec; unfold SFltb, SFeqb.
  intros H.
  destruct (SFcompare (Prim2SF 100) (Prim2SF r)) as [[]|] eqn:E;
    try discriminate.
  pose proof (SFcompare_antisym _ _ _ E) as E'; simpl in E'; rewrite E'.
  split; [|now split].
  change (Prim2SF 100) with (S754_finite false 7036874417766400 (-46)) in E.
  change (Prim2SF 80) with (S754_finite false 5629499534213120 (-46)).
  destruct (Prim2SF r) as [sg|sg| |sg m e]; cbn [SFcompare] in *;
    try discriminate.
  - destruct sg; [discriminate|reflexivity].
  - destruct sg; [discriminate|].
    destruct (-46 ?= e)%Z; try discriminate; try reflexivity.
    change (PosDef.Pos.compare_cont Eq 7036874417766400 m)
      with (Pos.compare 7036874417766400 m) in E.
    change (PosDef.Pos.compare_cont Eq 5629499534213120 m)
      with (Pos.compare 5629499534213120 m).
    injection E as E.
    assert (H80 : (5629499534213120 < m)%positive)
      by (apply (Pos.lt_trans _ 7036874417766400); [reflexivity|exact E]).
    unfold Pos.lt in H80; now rewrite H80.
Qed.

Local Close Scope float_scope.

(** ** Decimal digits *)

Local Open Scope Z_scope.

Lemma digitChar_isDigit (d : Z) : 0 <= d < 10 -> isDigit (digitChar d).
Proof. unfold isDigit, digitChar; lia. Qed.

Lemma digitValue_digitChar (d : Z) :
  0 <= d < 10 -> digitValue 10 (digitChar d) = Some d.
Proof.
  intros H; unfold digitValue, digitChar.
  rewrite Z2N.id by lia.
  replace ((48 <=? 48 + d) && (48 + d <=? 57)) with true
    by (symmetry; apply andb_true_iff; split; apply Z.leb_le; lia).
  replace (48 + d - 48 <? 10) with true by (symmetry; apply Z.ltb_lt; lia).
  f_equal; lia.
Qed.

Lemma digitsAux_isDigit (fuel : nat) (z : Z) (acc : jsstring) :
  0 <= z -> Forall isDigit acc -> Forall isDigit (digitsAux fuel z acc).
Proof.
  revert z acc; induction fuel as [|fuel IH]; intros z acc Hz Hacc; [exact Hacc|].
  simpl; destruct (Z.ltb_spec z 10).
  - constructor; [apply digitChar_isDigit; lia|exact Hacc].
  - apply IH; [apply Z.div_pos; lia|].
    constructor; [apply digitChar_isDigit; apply Z.mod_pos_bound; lia|exact Hacc].
Qed.

Lemma digitsAux_nonempty (fuel : nat) (z : Z) (acc : jsstring) :
  digitsAux (S fuel) z acc <> [].
Proof.
  revert z acc; induction fuel as [|fuel IH]; intros z acc.
  - simpl; now destruct (z <? 10).
  - change (digitsAux (S (S fuel)) z acc)
      with (if z <? 10 then digitChar z :: acc
            else digitsAux (S fuel) (z / 10) (digitChar (z mod 10) :: acc)).
    destruct (z <? 10); [easy|apply IH].
Qed.

(** Reading back the digits of [z] gives [z]. *)
Lemma readDigits_digitsAux (fuel : nat) (z : Z) :
  0 <= z < 10 ^ Z.of_nat (S fuel) ->
  exists k, 0 <= k /\ forall acc seen a,
    readDigits 10 (digitsAux (S fuel) z acc) seen a
    = readDigits 10 acc true (a * 10 ^ k + z).
Proof.
  revert z; induction fuel as [|fuel IH]; intros z Hz.
  - exists 1; split; [lia|]; intros acc seen a; simpl digitsAux.
    replace (z <? 10) with true by (symmetry; apply Z.ltb_lt; simpl in Hz; lia).
    simpl; rewrite digitValue_digitChar by (simpl in Hz; lia).
    f_equal; lia.
  - change (digitsAux (S (S fuel)) z)
      with (fun acc => if z <? 10 then digitChar z :: acc
                       else digitsAux (S fuel) (z / 10)
                              (digitChar (z mod 10) :: acc)).
    destruct (Z.ltb_spec z 10) as [Hlt|Hge].
    + exists 1; split; [lia|]; intros acc seen a; simpl.
      rewrite digitValue_digitChar by lia; f_equal; lia.
    + destruct (IH (z / 10)) as (k & Hk0 & Hk).
      { split; [apply Z.div_pos; lia|].
        apply Z.div_lt_upper_bound; [lia|].
        replace (Z.of_nat (S (S fuel))) with (1 + Z.of_nat (S fuel)) in Hz by lia.
        rewrite Z.pow_add_r in Hz by lia; lia. }
      exists (k + 1); split; [lia|]; intros acc seen a.
      rewrite Hk; simpl readDigits.
      rewrite digitValue_digitChar by (apply Z.mod_pos_bound; lia).
      f_equal; rewrite Z.pow_add_r by lia.
      pose proof (Z.div_mod z 10 ltac:(lia)); lia.
Qed.

Lemma digitsOf_bound (z : Z) :
  0 <= z -> z < 10 ^ Z.of_nat (S (Z.to_nat (Z.log2 z))).
Proof.
  intros Hz; destruct (Z.eq_dec z 0) as [->|Hnz]; [reflexivity|].
  pose proof (Z.log2_nonneg z) as Hl.
  rewrite Nat2Z.inj_succ, Z2Nat.id by exact Hl.
  apply Z.lt_le_trans with (2 ^ Z.succ (Z.log2 z)).
  - apply Z.log2_spec; lia.
  - apply Z.pow_le_mono_l; lia.
Qed.


Lemma isDigit_cases (c : char) :
  isDigit c ->
  isSpace c = false /\ N.eqb c c_minus = false /\ N.eqb c c_plus = false
  /\ N.eqb c 120 = false /\ N.eqb c 88 = false.
Proof.
  unfold isDigit; intros H.
  assert (Hc : (c = 48 \/ c = 49 \/ c = 50 \/ c = 51 \/ c = 52 \/ c = 53
                \/ c = 54 \/ c = 55 \/ c = 56 \/ c = 57)%N) by lia.
  repeat (destruct Hc as [->|Hc]; [now repeat split|]); subst; now repeat split.
Qed.


Local Close Scope Z_scope.

(** ** The steps of the program *)

Ltac unfold_monad :=
  unfold bind, ret, throw, tryCatch, core_info, core_error, core_setFailed,
    logLine; cbn [fst snd log failure outbox].

(** With a summary record and the three attributes found, [getStats] returns
    the statistics and leaves no trace. *)
Lemma getStats_found (env : Env) (text line vp vf vs : jsstring) (w : world) :
  exec summaryRe text = Some line ->
  exec (argRe (lit "pass")) line = Some vp ->
  exec (argRe (lit "fail")) line = Some vf ->
  exec (argRe (lit "skip")) line = Some vs ->
  getStats env text w =
  (Normal
     (Some {| passed := parseInt vp;
              failed := parseInt vf;
              skipped := parseInt vs;
              successRate :=
                parseInt (toFixed1 (parseInt vp
                                    / (parseInt vp + parseInt vf + parseInt vs)
                                    * 100)%float);
              timestamp := getTime (parse env (generatedOf text)) |}), w).
Proof.
  intros Hl Hp Hf Hs; unfold getStats, getArg; rewrite Hl.
  unfold_monad; rewrite Hp; unfold_monad; rewrite Hf; unfold_monad; rewrite Hs.
  reflexivity.
Qed.

(** Without a summary record [getStats] logs an error and returns
    [undefined]. *)
Lemma getStats_no_record (env : Env) (text : jsstring) (w : world) :
  exec summaryRe text = None ->
  getStats env text w =
  (Normal None, {| log := log w ++ [(Error, noStatsError)];
                   failure := failure w; outbox := outbox w |}).
Proof. intros H; unfold getStats; now rewrite H. Qed.

(** The first of [pass], [fail], [skip] that cannot be read makes [getStats]
    log and throw the error that names it. *)
Lemma getStats_throws (env : Env) (text line arg : jsstring)
      (before after : list jsstring) (w : world) :
  exec summaryRe text = Some line ->
  [lit "pass"; lit "fail"; lit "skip"] = before ++ arg :: after ->
  Forall (fun b => exec (argRe b) line <> None) before ->
  exec (argRe arg) line = None ->
  getStats env text w =
  (Throw (getArgError arg),
   {| log := log w ++ [(Error, getArgError arg)];
      failure := failure w; outbox := outbox w |}).
Proof.
  intros Hl Hsplit Hbefore Harg; unfold getStats, getArg; rewrite Hl.
  destruct before as [|b1 [|b2 [|b3 before]]].
  - injection Hsplit as <- _; unfold_monad; now rewrite Harg.
  - injection Hsplit as <- <- _.
    inversion Hbefore as [|? ? H1 _]; subst.
    destruct (exec (argRe (lit "pass")) line) eqn:E1; [|contradiction].
    unfold_monad; now rewrite Harg.
  - injection Hsplit as <- <- <- _.
    inversion Hbefore as [|? ? H1 Hb']; subst.
    inversion Hb' as [|? ? H2 _]; subst.
    destruct (exec (argRe (lit "pass")) line) eqn:E1; [|contradiction].
    destruct (exec (argRe (lit "fail")) line) eqn:E2; [|contradiction].
    unfold_monad; now rewrite Harg.
  - exfalso; injection Hsplit as _ _ _ H.
    destruct before; discriminate.
Qed.

(** A run on a report from which [getStats] returns statistics: the message
    is handed to the webhook; the run is marked failed only when the webhook
    refuses it. *)
Lemma run_found (cfg : Config) (env : Env) (text : jsstring) (stats : Stats) :
  readFile env (outputXmlPath cfg) = inr text ->
  text <> [] ->
  (forall w, getStats env text w = (Normal (Some stats), w)) ->
  run cfg env start =
  match webhookSend env (slackWebhookUrl cfg) (statsMessage cfg env stats) with
  | None =>
      (Normal tt, {| log := [runningLine]; failure := false;
                     outbox := [statsMessage cfg env stats] |})
  | Some e =>
      (Normal tt, {| log := [runningLine; (Error, e)]; failure := true;
                     outbox := [statsMessage cfg env stats] |})
  end.
Proof.
  intros Hread Hne Hstats; unfold run, getResults; rewrite Hread.
  destruct text as [|c text]; [contradiction|].
  unfold_monad; rewrite Hstats.
  unfold sendStats, sendSlackMessage; cbn [log failure outbox start app].
  fold (statsMessage cfg env stats).
  now destruct (webhookSend env _ _).
Qed.

(** A run on a report in which [getStats] finds no summary record. *)
Lemma run_no_record (cfg : Config) (env : Env) (text : jsstring) :
  readFile env (outputXmlPath cfg) = inr text ->
  text <> [] ->
  exec summaryRe text = None ->
  run cfg env start =
  (Normal tt, {| log := [runningLine; (Error, noStatsError);
                         (Error, noStatsError)];
                 failure := true; outbox := [] |}).
Proof.
  intros Hread Hne Hnone; unfold run, getResults; rewrite Hread.
  destruct text as [|c text]; [contradiction|].
  unfold_monad; now rewrite getStats_no_record.
Qed.

(** A run in which [getStats] throws: the error is caught and the run is
    marked failed with its message. *)
Lemma run_throws (cfg : Config) (env : Env) (text msg : jsstring) :
  readFile env (outputXmlPath cfg) = inr text ->
  text <> [] ->
  (forall w, getStats env text w =
             (Throw msg, {| log := log w ++ [(Error, msg)];
                            failure := failure w; outbox := outbox w |})) ->
  run cfg env start =
  (Normal tt, {| log := [runningLine; (Error, msg); (Error, msg)];
                 failure := true; outbox := [] |}).
Proof.
  intros Hread Hne Hthrow; unfold run, getResults; rewrite Hread.
  destruct text as [|c text]; [contradiction|].
  unfold_monad; now rewrite Hthrow.
Qed.

(** A run without a report. *)
Lemma run_no_output (cfg : Config) (env : Env) (err : jsstring) :
  readFile env (outputXmlPath cfg) = inl err ->
  run cfg env start =
  let w := {| log := [runningLine;
                      (Error, lit "Error reading results file: " ++ err)];
              failure := false; outbox := [] |} in
  if alertChannelOnNoOutput cfg then
    (match webhookSend env (slackWebhookUrl cfg) (noOutputMessage cfg) with
     | None => Normal tt
     | Some e => Throw e
     end,
     {| log := log w; failure := false; outbox := [noOutputMessage cfg] |})
  else (Normal tt, w).
Proof.
  intros Hread; unfold run, getResults; rewrite Hread.
  unfold_monad; destruct (alertChannelOnNoOutput cfg); [|reflexivity].
  unfold sendSlackMessage; cbn [log failure outbox start app].
  fold (noOutputMessage cfg).
  now destruct (webhookSend env _ _).
Qed.

(** * The claims *)

(** ** C1: a report with every test passed *)

(** C1.  The claim has the run skipped when the summary record reads
    pass 10, fail 0, skip 0 and the four alert switches are off.  The
    program never consults the switches for failure, skip and success: for
    every configuration, such a report has one message handed to the webhook,
    green and with the fields 10, 0, 0 and 100%, so the run is not skipped. *)
Theorem run_all_passed_sends (cfg : Config) (env : Env) (text : jsstring) :
  readFile env (outputXmlPath cfg) = inr text ->
  exec summaryRe text
  = Some (xml "<stat pass='10' fail='0' skip='0'>All Tests</stat>") ->
  outbox (snd (run cfg env start)) =
  [ {| channel := slackChannel cfg;
       username := slackUsername cfg;
       icon_emoji := slackIcon cfg;
       msg_text := lit "Robot Test Results #" ++ toString (runNumber env);
       attachments :=
         [ {| color := green;
              text := slackHeader cfg;
              mrkdwn_in := [lit "text"; lit "fields"];
              ts := getTime (parse env (generatedOf text));
              fields := [ shortField (lit "*Passed:*") (lit "10");
                          shortField (lit "*Failed:*") (lit "0");
                          shortField (lit "*Skipped:*") (lit "0");
                          shortField (lit "*Success Rate:*") (lit "100%") ] |} ]
    |} ]
  /\ outcome (run cfg env start) <> Skipped.
Proof.
  intros Hread Hline.
  pose proof (exec_summaryRe_nonempty _ _ Hline) as Hne.
  rewrite (run_found cfg env text _ Hread Hne
             (fun w => getStats_found env text _ (lit "10") (lit "0") (lit "0")
                         w Hline
                         ltac:(now vm_compute) ltac:(now vm_compute)
                         ltac:(now vm_compute))).
  unfold statsMessage, statsAttachment, getColor;
    cbn [passed failed skipped successRate timestamp].
  replace (parseInt (lit "10")) with 10%float by now vm_compute.
  replace (parseInt (lit "0")) with 0%float by now vm_compute.
  replace (parseInt (toFixed1 (10 / (10 + 0 + 0) * 100)%float))
    with 100%float by now vm_compute.
  replace (100 =? 100)%float with true by now vm_compute.
  replace (toString 10%float) with (lit "10") by now vm_compute.
  replace (toString 0%float) with (lit "0") by now vm_compute.
  replace (toString 100%float ++ lit "%") with (lit "100%") by now vm_compute.
  destruct (webhookSend env _ _); split; try reflexivity; discriminate.
Qed.

(** The run of C1 on a sample report, all four switches off. *)
Lemma run_all_passed_sends_witness :
  let cfg := sampleConfig false false false false in
  let text := report "<stat pass='10' fail='0' skip='0'>All Tests</stat>" in
  let env := sampleEnv (inr text) in
  readFile env (outputXmlPath cfg) = inr text
  /\ exec summaryRe text
     = Some (xml "<stat pass='10' fail='0' skip='0'>All Tests</stat>")
  /\ outcome (run cfg env start) <> Skipped.
Proof.
  intros cfg text env.
  assert (H1 : readFile env (outputXmlPath cfg) = inr text) by reflexivity.
  assert (H2 : exec summaryRe text
               = Some (xml "<stat pass='10' fail='0' skip='0'>All Tests</stat>"))
    by now vm_compute.
  split; [exact H1|split; [exact H2|]].
  exact (proj2 (run_all_passed_sends cfg env text H1 H2)).
Defined.

(** ** C2: the success rate *)

(** C2.  The claim has the success rate rounded to one decimal place.  The
    program prints the rate with one decimal and then reads the print back
    with [parseInt], which stops at the decimal point: for a record with
    pass 1, fail 2, skip 0 the counts are 1, 2 and 0, but the rate is 33 and
    not 33.3, and the field of the message reads 33% and not 33.3%. *)
Theorem successRate_loses_its_decimal (cfg : Config) (env : Env)
        (text : jsstring) (w : world) :
  exec summaryRe text
  = Some (xml "<stat pass='1' fail='2' skip='0'>All Tests</stat>") ->
  exists st,
    getStats env text w = (Normal (Some st), w)
    /\ passed st = 1%float /\ failed st = 2%float /\ skipped st = 0%float
    /\ toFixed1 (passed st / (passed st + failed st + skipped st) * 100)%float
       = lit "33.3"
    /\ successRate st = 33%float
    /\ (successRate st =? 333 / 10)%float = false
    /\ nth 3 (fields (statsAttachment cfg st)) (shortField [] [])
       = shortField (lit "*Success Rate:*") (lit "33%").
Proof.
  intros Hline; eexists; split.
  - apply (getStats_found env text _ (lit "1") (lit "2") (lit "0") w Hline);
      now vm_compute.
  - cbn [passed failed skipped successRate statsAttachment fields nth].
    repeat split; now vm_compute.
Qed.

(** The run of C2 on a sample report. *)
Lemma successRate_loses_its_decimal_witness :
  let text := report "<stat pass='1' fail='2' skip='0'>All Tests</stat>" in
  exists st,
    getStats (sampleEnv (inr text)) text start = (Normal (Some st), start)
    /\ successRate st = 33%float.
Proof.
  intros text.
  destruct (successRate_loses_its_decimal
              (sampleConfig true false false false) (sampleEnv (inr text))
              text start ltac:(now vm_compute))
    as (st & H1 & _ & _ & _ & _ & H2 & _).
  exists st; split; assumption.
Defined.

(** The second scenario of the specification, pass 8, fail 2, skip 0: the
    message is red and its last field reads 80%, without a decimal. *)
Lemma scenario_B_field (cfg : Config) (env : Env) (text : jsstring) (w : world) :
  exec summaryRe text
  = Some (xml "<stat pass='8' fail='2' skip='0'>All Tests</stat>") ->
  exists st,
    getStats env text w = (Normal (Some st), w)
    /\ color (statsAttachment cfg st) = red
    /\ map value (fields (statsAttachment cfg st))
       = [lit "8"; lit "2"; lit "0"; lit "80%"].
Proof.
  intros Hline; eexists; split.
  - apply (getStats_found env text _ (lit "8") (lit "2") (lit "0") w Hline);
      now vm_compute.
  - split; now vm_compute.
Qed.

(** ** C3: a record with no tests *)

(** C3, as the claim states it, fails: on a report whose summary record reads
    pass 0, fail 0, skip 0 the extraction returns statistics, although the
    three counts add up to 0. *)
Lemma empty_result_set_counterexample :
  let text := report "<stat pass='0' fail='0' skip='0'>All Tests</stat>" in
  exists st,
    getStats (sampleEnv (inr text)) text start = (Normal (Some st), start)
    /\ (1 <=? passed st + failed st + skipped st)%float = false.
Proof.
  intros text; eexists; split.
  - apply (getStats_found _ text
             (xml "<stat pass='0' fail='0' skip='0'>All Tests</stat>")
             (lit "0") (lit "0") (lit "0")); now vm_compute.
  - now vm_compute.
Qed.

(** C3, amended.  The program has no error for an empty result set: for a
    summary record with pass 0, fail 0, skip 0 the extraction returns the
    counts 0, 0, 0 and a success rate that is NaN. *)
Theorem getStats_empty_result_set (env : Env) (text : jsstring) (w : world) :
  exec summaryRe text
  = Some (xml "<stat pass='0' fail='0' skip='0'>All Tests</stat>") ->
  getStats env text w =
  (Normal (Some {| passed := 0%float; failed := 0%float; skipped := 0%float;
                   successRate := nan;
                   timestamp := getTime (parse env (generatedOf text)) |}), w).
Proof.
  intros Hline.
  rewrite (getStats_found env text _ (lit "0") (lit "0") (lit "0") w Hline)
    by now vm_compute.
  repeat f_equal; now vm_compute.
Qed.

Lemma getStats_empty_result_set_witness :
  let text := report "<stat pass='0' fail='0' skip='0'>All Tests</stat>" in
  exec summaryRe text
  = Some (xml "<stat pass='0' fail='0' skip='0'>All Tests</stat>")
  /\ counts (fst (getStats (sampleEnv (inr text)) text start))
     = Normal (Some (0%float, 0%float, 0%float, nan)).
Proof.
  intros text.
  assert (H : exec summaryRe text
              = Some (xml "<stat pass='0' fail='0' skip='0'>All Tests</stat>"))
    by now vm_compute.
  split; [exact H|].
  now rewrite (getStats_empty_result_set (sampleEnv (inr text)) text start H).
Defined.

(** ** C4: a report without a summary record *)

Lemma no_record_by_search (text : jsstring) :
  exec summaryRe text = None -> ~ hasSummaryRecord text.
Proof.
  intros H Hhas; apply exec_summaryRe_complete in Hhas.
  destruct Hhas as [line Hline]; congruence.
Qed.

(** C4, as the claim states it, fails for the empty text: it holds no
    summary record, but the program takes an empty file for a missing one, and
    with the alert for a missing report switched off the run ends with
    success, nothing sent, no failure raised. *)
Lemma empty_report_counterexample :
  let cfg := sampleConfig false false false false in
  let env := sampleEnv (inr []) in
  ~ hasSummaryRecord []
  /\ run cfg env start
     = (Normal tt, {| log := [runningLine]; failure := false; outbox := [] |})
  /\ outcome (run cfg env start) = Skipped
  /\ exitCode (run cfg env start) = 0%Z.
Proof.
  intros cfg env; split; [apply no_record_by_search; reflexivity|].
  repeat split.
Qed.

(** C4, amended.  For every text that is not empty and holds no summary
    record, whatever else it holds, the extraction logs an error and returns
    no statistics, and the run is marked failed with the message of that
    error: nothing is sent and the process ends with a failure status. *)
Theorem run_without_summary_record (cfg : Config) (env : Env)
        (text : jsstring) :
  readFile env (outputXmlPath cfg) = inr text ->
  text <> [] ->
  ~ hasSummaryRecord text ->
  (forall w, getStats env text w
             = (Normal None, {| log := log w ++ [(Error, noStatsError)];
                                failure := failure w; outbox := outbox w |}))
  /\ run cfg env start
     = (Normal tt, {| log := [runningLine; (Error, noStatsError);
                              (Error, noStatsError)];
                      failure := true; outbox := [] |})
  /\ outcome (run cfg env start) = Failed noStatsError
  /\ exitCode (run cfg env start) = 1%Z.
Proof.
  intros Hread Hne Hno.
  pose proof (exec_summaryRe_None text Hno) as Hnone.
  split; [intros w; now apply getStats_no_record|].
  rewrite (run_no_record cfg env text Hread Hne Hnone).
  repeat split.
Qed.

(** A report with a stat record of another name and nothing for All Tests. *)
Lemma run_without_summary_record_witness :
  let cfg := sampleConfig true true true true in
  let text := report "<stat pass='3' fail='0' skip='0'>Smoke</stat>" in
  let env := sampleEnv (inr text) in
  ~ hasSummaryRecord text
  /\ outcome (run cfg env start) = Failed noStatsError
  /\ exitCode (run cfg env start) = 1%Z.
Proof.
  intros cfg text env.
  assert (Hno : ~ hasSummaryRecord text)
    by (apply no_record_by_search; now vm_compute).
  split; [exact Hno|].
  exact (proj2 (proj2 (run_without_summary_record cfg env text eq_refl
                         ltac:(discriminate) Hno))).
Defined.

(** ** C5: a summary record with an attribute missing *)

(** C5, as the claim states it, fails: [getArg] looks for the characters of
    the name followed by [=] and a double quote, not for an attribute of
    that name.  A record that has no [fail] attribute, but another attribute
    whose name ends in [fail], is read from that attribute: no error is
    raised, the message goes out and the run ends with success. *)
Lemma missing_fail_counterexample :
  let attrs := [spaced "pass" "8"; spaced "xfail" "7"; spaced "skip" "0"] in
  let text := report "<stat pass='8' xfail='7' skip='0'>All Tests</stat>" in
  let cfg := sampleConfig true true true true in
  let env := sampleEnv (inr text) in
  exec summaryRe text = Some (render attrs [])
  /\ map name attrs = [lit "pass"; lit "xfail"; lit "skip"]
  /\ valueOf (lit "fail") attrs = None
  /\ (exists st,
        getStats env text start = (Normal (Some st), start)
        /\ failed st = 7%float)
  /\ length (outbox (snd (run cfg env start))) = 1%nat
  /\ failure (snd (run cfg env start)) = false
  /\ exitCode (run cfg env start) = 0%Z.
Proof.
  intros attrs text cfg env.
  split; [now vm_compute|split; [reflexivity|split; [reflexivity|]]].
  split; [|split; [|split]]; try (now vm_compute).
  eexists; split;
    [apply (getStats_found _ _
              (xml "<stat pass='8' xfail='7' skip='0'>All Tests</stat>")
              (lit "8") (lit "7") (lit "0")); now vm_compute|].
  now vm_compute.
Qed.

(** C5, amended.  When the summary record has no value that can be read for
    one of [pass], [fail], [skip] (nowhere in it is the name, [=] and a
    double quote followed by a run without white space, not empty, and a
    double quote), the names read before it having one, the extraction logs
    and throws the error that names it; the run catches it and is marked
    failed with that message, and nothing is sent. *)
Theorem run_missing_attribute (cfg : Config) (env : Env)
        (text line arg : jsstring) (before after : list jsstring) :
  readFile env (outputXmlPath cfg) = inr text ->
  exec summaryRe text = Some line ->
  statArgs = before ++ arg :: after ->
  Forall (fun b => hasValue b line) before ->
  ~ hasValue arg line ->
  (forall w, fst (getStats env text w)
             = Throw (lit "Error getting " ++ arg ++ lit " from XML"))
  /\ run cfg env start
     = (Normal tt,
        {| log := [runningLine;
                   (Error, lit "Error getting " ++ arg ++ lit " from XML");
                   (Error, lit "Error getting " ++ arg ++ lit " from XML")];
           failure := true; outbox := [] |})
  /\ outcome (run cfg env start)
     = Failed (lit "Error getting " ++ arg ++ lit " from XML")
  /\ exitCode (run cfg env start) = 1%Z.
Proof.
  intros Hread Hline Hsplit Hbefore Habs.
  assert (Hnone : exec (argRe arg) line = None).
  { destruct (exec (argRe arg) line) eqn:E; [|reflexivity].
    exfalso; apply Habs, exec_argRe_hasValue; rewrite E; discriminate. }
  assert (Hfound : Forall (fun b => exec (argRe b) line <> None) before).
  { eapply Forall_impl; [|exact Hbefore].
    intros b Hb; now apply exec_argRe_hasValue. }
  pose proof (fun w => getStats_throws env text line arg before after w
                         Hline Hsplit Hfound Hnone) as Hthrow.
  split; [intros w; now rewrite Hthrow|].
  rewrite (run_throws cfg env text (getArgError arg) Hread
             (exec_summaryRe_nonempty text line Hline) Hthrow).
  repeat split.
Qed.

(** The fourth scenario of the specification: a record without [fail]. *)
Lemma run_missing_attribute_witness :
  let cfg := sampleConfig true true true true in
  let text := report "<stat pass='8' skip='0'>All Tests</stat>" in
  let env := sampleEnv (inr text) in
  (~ hasValue (lit "fail") (xml "<stat pass='8' skip='0'>All Tests</stat>"))
  /\ outcome (run cfg env start) = Failed (lit "Error getting fail from XML")
  /\ exitCode (run cfg env start) = 1%Z.
Proof.
  intros cfg text env.
  assert (Habs : ~ hasValue (lit "fail")
                     (xml "<stat pass='8' skip='0'>All Tests</stat>"))
    by (intros H; apply exec_argRe_hasValue in H; apply H; now vm_compute).
  split; [exact Habs|].
  exact (proj2 (proj2 (run_missing_attribute cfg env text
                         (xml "<stat pass='8' skip='0'>All Tests</stat>")
                         (lit "fail") [lit "pass"] [lit "skip"]
                         eq_refl ltac:(now vm_compute) eq_refl
                         ltac:(repeat constructor; apply exec_argRe_hasValue;
                               now vm_compute) Habs))).
Defined.

(** ** C6: the colour of the message *)

Lemma colours_differ : green <> amber /\ green <> red /\ amber <> red.
Proof. repeat split; discriminate. Qed.

(** C6, as the claim states it, fails: a rate above 100 is neither 100 nor
    between 80 and 100, and the claim has it red, but the second test of
    [getColor] only asks whether the rate is above 80, and the message is
    amber.  The extraction returns such rates: it accepts a negative count,
    and 10 passed with -5 failed make a rate of 200. *)
Lemma rate_above_100_counterexample :
  let text := report "<stat pass='10' fail='-5' skip='0'>All Tests</stat>" in
  exists st,
    getStats (sampleEnv (inr text)) text start = (Normal (Some st), start)
    /\ successRate st = 200%float
    /\ (successRate st =? 100)%float = false
    /\ ((80 <? successRate st)%float && (successRate st <? 100)%float) = false
    /\ getColor st = amber /\ getColor st <> red.
Proof.
  intros text; eexists; split;
    [apply (getStats_found _ _
              (xml "<stat pass='10' fail='-5' skip='0'>All Tests</stat>")
              (lit "10") (lit "-5") (lit "0")); now vm_compute|].
  repeat split; now vm_compute.
Qed.

(** C6, amended.  For every statistics value the colour is green exactly
    when the rate is 100, amber exactly when it is above 80 and below 100 or
    above 100, and red exactly when it is not above 80 (80 and less, or not a
    number); a rate of 80 gives red.  For a rate that does not exceed 100,
    as a share of the tests cannot, these are the bands of the claim. *)
Theorem getColor_bands (stats : Stats) :
  (getColor stats = green <-> (successRate stats =? 100)%float = true)
  /\ (getColor stats = amber <->
      ((80 <? successRate stats)%float = true
       /\ (successRate stats <? 100)%float = true)
      \/ (100 <? successRate stats)%float = true)
  /\ (getColor stats = red <-> (80 <? successRate stats)%float = false)
  /\ ((successRate stats =? 80)%float = true -> getColor stats = red)
  /\ ((100 <? successRate stats)%float = false ->
      (getColor stats = amber <->
       (80 <? successRate stats)%float = true
       /\ (successRate stats <? 100)%float = true)
      /\ (getColor stats = red <->
          (successRate stats =? 100)%float = false
          /\ ((80 <? successRate stats)%float
              && (successRate stats <? 100)%float = false))).
Proof.
  destruct colours_differ as (Hga & Hgr & Har).
  assert (H80 : (successRate stats =? 80)%float = true ->
                (successRate stats =? 100)%float = false
                /\ (80 <? successRate stats)%float = false).
  { intros E.
    apply (eqb_finite _ 80%float false 5629499534213120%positive (-46)%Z
             eq_refl) in E.
    rewrite E; split; reflexivity. }
  assert (H100 : (successRate stats =? 100)%float = true ->
                 (80 <? successRate stats)%float = true
                 /\ (100 <? successRate stats)%float = false).
  { intros E.
    apply (eqb_finite _ 100%float false 7036874417766400%positive (-46)%Z
             eq_refl) in E.
    rewrite E; split; reflexivity. }
  unfold getColor.
  destruct (successRate stats =? 100)%float eqn:E100.
  - destruct (H100 eq_refl) as [E80 Eabove].
    rewrite (not_both_100 _ E100), E80, Eabove, andb_false_r.
    split; [tauto|split; [|split; [|split; [|intros _; split]]]].
    + split; [congruence|intros [[_ H]|H]; discriminate].
    + split; [congruence|discriminate].
    + intros E; destruct (H80 E); discriminate.
    + split; [congruence|intros [_ H]; discriminate].
    + split; [congruence|intros [H _]; discriminate].
  - destruct (80 <? successRate stats)%float eqn:E80.
    + split; [split; [congruence|discriminate]|].
      split; [split; [intros _; destruct (apart_from_100 _ E100 E80); auto
                     |reflexivity]|].
      split; [split; [congruence|discriminate]|].
      split; [intros E; destruct (H80 E); discriminate|].
      intros Hle; rewrite (below_100 _ Hle E100 E80); cbn [andb].
      split; [tauto|].
      split; [congruence|intros [_ H]; discriminate].
    + split; [split; [intros H; symmetry in H; contradiction|discriminate]|].
      split.
      { split; [intros H; symmetry in H; contradiction|].
        intros [[H _]|H]; [discriminate|].
        destruct (above_100 _ H) as [H' _]; congruence. }
      split; [tauto|split; [reflexivity|]].
      intros _; cbn [andb]; split; [|tauto].
      split; [intros H; symmetry in H; contradiction|intros [H _]; discriminate].
Qed.

(** The bands at the rates 100, 90, 81, 80 and 0, at a rate that is not a
    number, and above 100. *)
Lemma getColor_bands_witness :
  let at_rate r := {| passed := 0%float; failed := 0%float;
                      skipped := 0%float; successRate := r;
                      timestamp := 0%float |} in
  (100 <? successRate (at_rate 80%float))%float = false
  /\ getColor (at_rate 80%float) = red
  /\ getColor (at_rate 200%float) = amber
  /\ map (fun r => getColor (at_rate r))
         [100%float; 90%float; 81%float; 80%float; 0%float; nan]
     = [green; amber; amber; red; red; red].
Proof.
  intros at_rate; split; [reflexivity|split; [|split]].
  - exact (proj2 (proj2 (proj2 (proj2 (proj2 (proj2
             (getColor_bands (at_rate 80%float))))) eq_refl))
             (conj eq_refl eq_refl)).
  - exact (proj2 (proj1 (proj2 (getColor_bands (at_rate 200%float))))
             (or_intror eq_refl)).
  - reflexivity.
Defined.

(** ** C9: a run without a report *)

(** C9.  When the report cannot be read, the run never calls
    [core.setFailed].  With the alert for a missing report on, exactly one
    message is handed to the webhook, with the configured text and no
    attachment, and the run ends with success once the webhook has taken it;
    with the alert off nothing is handed over and the run ends with
    success. *)
Theorem run_without_report (cfg : Config) (env : Env) (err : jsstring) :
  readFile env (outputXmlPath cfg) = inl err ->
  failure (snd (run cfg env start)) = false
  /\ (alertChannelOnNoOutput cfg = true ->
      outbox (snd (run cfg env start))
      = [ {| channel := slackChannel cfg;
             username := slackUsername cfg;
             icon_emoji := slackIcon cfg;
             msg_text := noOutputFoundMessage cfg;
             attachments := [] |} ]
      /\ (webhookSend env (slackWebhookUrl cfg) (noOutputMessage cfg) = None ->
          fst (run cfg env start) = Normal tt
          /\ exitCode (run cfg env start) = 0%Z
          /\ outcome (run cfg env start) = Sent (noOutputMessage cfg)))
  /\ (alertChannelOnNoOutput cfg = false ->
      outbox (snd (run cfg env start)) = []
      /\ fst (run cfg env start) = Normal tt
      /\ exitCode (run cfg env start) = 0%Z
      /\ outcome (run cfg env start) = Skipped).
Proof.
  intros Hread; rewrite (run_no_output cfg env err Hread); cbv zeta.
  destruct (alertChannelOnNoOutput cfg).
  - split; [reflexivity|split; [|discriminate]].
    intros _; split; [reflexivity|].
    intros ->; repeat split.
  - split; [reflexivity|split; [discriminate|]].
    intros _; repeat split.
Qed.

(** The third scenario of the specification, and the same run with the
    alert off. *)
Lemma run_without_report_witness :
  let env := sampleEnv (inl (lit "Error: ENOENT: no such file or directory")) in
  outcome (run (sampleConfig false false false true) env start)
  = Sent {| channel := lit "#ci"; username := lit "robot";
            icon_emoji := lit ":robot_face:";
            msg_text := lit "No results found"; attachments := [] |}
  /\ outcome (run (sampleConfig false false false false) env start) = Skipped.
Proof.
  intros env; split.
  - exact (proj2 (proj2 (proj2 (proj1 (proj2
             (run_without_report (sampleConfig false false false true) env _
                eq_refl)) eq_refl) eq_refl))).
  - exact (proj2 (proj2 (proj2 (proj2 (proj2
             (run_without_report (sampleConfig false false false false) env _
                eq_refl)) eq_refl)))).
Defined.

(** ** C10: an attribute that is not a number *)

(** C10, as the claim states it, fails: an attribute that is there with an
    empty value, or with white space in its value, does not read as an
    integer either, but [getArg] finds no value for it, and the extraction
    logs and throws the error of a missing attribute; the run is marked
    failed and nothing is sent. *)
Lemma unreadable_value_counterexample :
  let cfg := sampleConfig false false false false in
  let empty := report "<stat pass='' fail='2' skip='0'>All Tests</stat>" in
  let words := report "<stat pass='not run' fail='2' skip='0'>All Tests</stat>" in
  (occursIn (xml "<stat pass='' fail=") empty
   /\ parseInt [] = nan
   /\ fst (getStats (sampleEnv (inr empty)) empty start)
      = Throw (lit "Error getting pass from XML")
   /\ outcome (run cfg (sampleEnv (inr empty)) start)
      = Failed (lit "Error getting pass from XML")
   /\ outbox (snd (run cfg (sampleEnv (inr empty)) start)) = []
   /\ exitCode (run cfg (sampleEnv (inr empty)) start) = 1%Z)
  /\ (occursIn (xml "<stat pass='not run' fail=") words
      /\ parseInt (lit "not run") = nan
      /\ fst (getStats (sampleEnv (inr words)) words start)
         = Throw (lit "Error getting pass from XML")
      /\ outcome (run cfg (sampleEnv (inr words)) start)
         = Failed (lit "Error getting pass from XML")
      /\ outbox (snd (run cfg (sampleEnv (inr words)) start)) = []
      /\ exitCode (run cfg (sampleEnv (inr words)) start) = 1%Z).
Proof.
  intros cfg empty words; split;
    (split; [apply occursInb_spec; now vm_compute|]);
    repeat split; now vm_compute.
Qed.

(** C10, amended.  When [getArg] finds a value for each of the three
    attributes (a run without white space, not empty, between the name with
    [=] and a double quote, and a double quote) and one of the values does not
    read as an integer, so that [parseInt] gives NaN for it, the extraction
    raises no error: it returns the counts as read and a success rate that
    is NaN, and the run hands over a red message whose fields show the counts
    as printed and the rate as NaN%; the run is marked failed only if the
    webhook refuses the message. *)
Theorem run_with_a_count_that_is_not_a_number (cfg : Config) (env : Env)
        (text line vp vf vs : jsstring) :
  readFile env (outputXmlPath cfg) = inr text ->
  exec summaryRe text = Some line ->
  exec (argRe (lit "pass")) line = Some vp ->
  exec (argRe (lit "fail")) line = Some vf ->
  exec (argRe (lit "skip")) line = Some vs ->
  parseInt vp = nan \/ parseInt vf = nan \/ parseInt vs = nan ->
  exists st,
    (forall w, getStats env text w = (Normal (Some st), w))
    /\ passed st = parseInt vp /\ failed st = parseInt vf
    /\ skipped st = parseInt vs /\ successRate st = nan
    /\ toString nan = lit "NaN"
    /\ outbox (snd (run cfg env start)) = [statsMessage cfg env st]
    /\ color (statsAttachment cfg st) = red
    /\ map value (fields (statsAttachment cfg st))
       = [toString (parseInt vp); toString (parseInt vf);
          toString (parseInt vs); lit "NaN%"]
    /\ (webhookSend env (slackWebhookUrl cfg) (statsMessage cfg env st) = None ->
        fst (run cfg env start) = Normal tt
        /\ failure (snd (run cfg env start)) = false).
Proof.
  intros Hread Hline Hp Hf Hs Hnan.
  pose proof (fun w => getStats_found env text line vp vf vs w Hline Hp Hf Hs)
    as Hstats.
  rewrite (rate_nan _ _ _ Hnan) in Hstats.
  replace (parseInt (toFixed1 nan)) with nan in Hstats by now vm_compute.
  eexists; split; [exact Hstats|].
  rewrite (run_found cfg env text _ Hread
             (exec_summaryRe_nonempty text line Hline) Hstats).
  cbn [passed failed skipped successRate].
  repeat (split; [reflexivity|]).
  split; [now destruct (webhookSend env _ _)|].
  repeat (split; [reflexivity|]).
  now intros ->.
Qed.

(** A record whose [pass] attribute is a word. *)
Lemma run_with_a_count_that_is_not_a_number_witness :
  let cfg := sampleConfig false false false false in
  let text := report "<stat pass='abc' fail='2' skip='0'>All Tests</stat>" in
  let env := sampleEnv (inr text) in
  parseInt (lit "abc") = nan
  /\ exists st,
       getStats env text start = (Normal (Some st), start)
       /\ successRate st = nan
       /\ map value (fields (statsAttachment cfg st))
          = [lit "NaN"; lit "2"; lit "0"; lit "NaN%"].
Proof.
  intros cfg text env; split; [reflexivity|].
  destruct (run_with_a_count_that_is_not_a_number cfg env text
              (xml "<stat pass='abc' fail='2' skip='0'>All Tests</stat>")
              (lit "abc") (lit "2") (lit "0")
              eq_refl ltac:(now vm_compute) ltac:(now vm_compute)
              ltac:(now vm_compute) ltac:(now vm_compute)
              (or_introl eq_refl))
    as (st & Hst & _ & _ & _ & Hrate & _ & _ & _ & Hfields & _).
  exists st; split; [apply Hst|split; [exact Hrate|]].
  rewrite Hfields; reflexivity.
Defined.

(** ** C7: the time stamp *)

(** The result of the extraction, the time stamp apart, does not depend on
    the date parser: the time stamp never makes it fail. *)
Lemma getStats_counts_any_parser (env env' : Env) (text : jsstring) (w : world) :
  counts (fst (getStats env text w)) = counts (fst (getStats env' text w))
  /\ snd (getStats env text w) = snd (getStats env' text w).
Proof.
  unfold getStats, getArg.
  destruct (exec summaryRe text) as [line|]; [|now split].
  unfold_monad.
  destruct (exec (argRe (lit "pass")) line); [|now split].
  destruct (exec (argRe (lit "fail")) line); [|now split].
  destruct (exec (argRe (lit "skip")) line); now split.
Qed.

(** C7, as the claim states it, fails: without a [generated] attribute, and
    with one that is not a date, the parser of date-fns gives the Invalid
    Date, and the time stamp of the statistics is NaN, which is not the
    zero instant. *)
Lemma missing_timestamp_counterexample :
  let record := "<stat pass='8' fail='2' skip='0'>All Tests</stat>"%string in
  (exec generatedRe (undatedReport record) = None
   /\ exists st,
        getStats (sampleEnv (inr (undatedReport record)))
                 (undatedReport record) start
        = (Normal (Some st), start)
        /\ timestamp st = nan /\ (timestamp st =? 0)%float = false)
  /\ (exec generatedRe (stampedReport "yesterday" record)
      = Some (lit "yesterday")
      /\ exists st,
           getStats (sampleEnv (inr (stampedReport "yesterday" record)))
                    (stampedReport "yesterday" record) start
           = (Normal (Some st), start)
           /\ timestamp st = nan /\ (timestamp st =? 0)%float = false).
Proof.
  intros record; split; (split; [now vm_compute|]); eexists; split;
    try (apply (getStats_found _ _ (xml record) (lit "8") (lit "2") (lit "0"));
         now vm_compute);
    split; now vm_compute.
Qed.

(** C7, amended.  When the date parser gives the Invalid Date for the
    string it is handed (what the pattern finds after [generated=] and a
    double quote in the text, or the empty string when it finds nothing), the
    extraction does not fail on that account:
    it returns the statistics whenever the three counts can be read, with the
    same counts as under any other parser, and the time stamp is NaN, the
    time value of the Invalid Date, not zero. *)
Theorem getStats_invalid_date (env : Env) (text line vp vf vs : jsstring)
        (w : world) :
  exec summaryRe text = Some line ->
  exec (argRe (lit "pass")) line = Some vp ->
  exec (argRe (lit "fail")) line = Some vf ->
  exec (argRe (lit "skip")) line = Some vs ->
  parse env (generatedOf text) = None ->
  (exists st,
     getStats env text w = (Normal (Some st), w)
     /\ passed st = parseInt vp /\ failed st = parseInt vf
     /\ skipped st = parseInt vs
     /\ timestamp st = nan /\ (timestamp st =? 0)%float = false)
  /\ (forall env', counts (fst (getStats env' text w))
                   = counts (fst (getStats env text w))).
Proof.
  intros Hline Hp Hf Hs Hparse; split.
  - eexists; split;
      [exact (getStats_found env text line vp vf vs w Hline Hp Hf Hs)|].
    cbn [passed failed skipped timestamp]; rewrite Hparse.
    repeat split.
  - intros env'; apply getStats_counts_any_parser.
Qed.

Lemma getStats_invalid_date_witness :
  let text := undatedReport "<stat pass='8' fail='2' skip='0'>All Tests</stat>" in
  let env := sampleEnv (inr text) in
  parse env (generatedOf text) = None
  /\ exists st,
       getStats env text start = (Normal (Some st), start)
       /\ timestamp st = nan.
Proof.
  intros text env.
  assert (Hparse : parse env (generatedOf text) = None) by now vm_compute.
  split; [exact Hparse|].
  destruct (proj1 (getStats_invalid_date env text
                     (xml "<stat pass='8' fail='2' skip='0'>All Tests</stat>")
                     (lit "8") (lit "2") (lit "0") start
                     ltac:(now vm_compute) ltac:(now vm_compute)
                     ltac:(now vm_compute) ltac:(now vm_compute) Hparse))
    as (st & Hst & _ & _ & _ & Hts & _).
  exists st; split; assumption.
Defined.

(** ** C8: the order of the attributes *)

Lemma eqs_spec (a b : jsstring) : eqs a b = true <-> a = b.
Proof.
  revert b; induction a as [|x a IH]; intros [|y b]; simpl; try easy.
  rewrite andb_true_iff, N.eqb_eq, IH; split.
  - now intros [-> ->].
  - now intros [= -> ->].
Qed.

Lemma endsWith_refl (a : jsstring) : endsWith a a = true.
Proof.
  unfold endsWith; rewrite <- (app_nil_r (rev a)) at 2; apply starts_with_app.
Qed.

(** When no name merely ends with [arg], the search finds the attribute
    named [arg]. *)
Lemma lookupArg_valueOf (a : jsstring) (attrs : list attr) :
  (forall x, In x attrs -> endsWith a (name x) = true -> name x = a) ->
  lookupArg a attrs = valueOf a attrs.
Proof.
  induction attrs as [|x attrs IH]; intros H; [reflexivity|]; simpl.
  destruct (endsWith a (name x)) eqn:E.
  - rewrite (H x (or_introl eq_refl) E).
    now rewrite (proj2 (eqs_spec a a) eq_refl).
  - destruct (eqs a (name x)) eqn:E'.
    + apply eqs_spec in E'; rewrite <- E', endsWith_refl in E; discriminate.
    + apply IH; intros y Hy; apply H; now right.
Qed.

Lemma valueOf_Some (a v : jsstring) (attrs : list attr) :
  NoDup (map name attrs) ->
  valueOf a attrs = Some v <-> In (a, v) (map nameVal attrs).
Proof.
  induction attrs as [|x attrs IH]; simpl; [easy|].
  intros Hnd; inversion Hnd as [|? ? Hnotin Hnd']; subst.
  destruct (eqs a (name x)) eqn:E.
  - apply eqs_spec in E; subst a; split.
    + intros [= <-]; now left.
    + intros [[= <-]|Hin]; [reflexivity|].
      exfalso; apply Hnotin.
      apply (in_map fst) in Hin; rewrite map_map in Hin; exact Hin.
  - rewrite (IH Hnd'); split; [now right|].
    intros [[= Hn _]|Hin]; [|exact Hin].
    rewrite <- Hn, (proj2 (eqs_spec _ _) eq_refl) in E; discriminate.
Qed.

Lemma valueOf_None (a : jsstring) (attrs : list attr) :
  valueOf a attrs = None <-> ~ In a (map name attrs).
Proof.
  induction attrs as [|x attrs IH]; simpl; [easy|].
  destruct (eqs a (name x)) eqn:E.
  - apply eqs_spec in E; split; [discriminate|]; intros H; exfalso; apply H.
    now left.
  - rewrite IH; split; [|tauto].
    intros H [Hx|Hin]; [|tauto].
    rewrite Hx, (proj2 (eqs_spec _ _) eq_refl) in E; discriminate.
Qed.

Lemma names_of_pairs (attrs : list attr) :
  map name attrs = map fst (map nameVal attrs).
Proof. now rewrite map_map. Qed.

(** The attribute named [arg] is the same in every order. *)
Lemma valueOf_permutation (a : jsstring) (attrs attrs' : list attr) :
  NoDup (map name attrs) ->
  Permutation (map nameVal attrs) (map nameVal attrs') ->
  valueOf a attrs = valueOf a attrs'.
Proof.
  intros Hnd Hperm.
  assert (Hnames : Permutation (map name attrs) (map name attrs'))
    by (rewrite !names_of_pairs; now apply Permutation_map).
  assert (Hnd' : NoDup (map name attrs'))
    by (eapply Permutation_NoDup; eassumption).
  destruct (valueOf a attrs) as [v|] eqn:E.
  - symmetry; apply valueOf_Some; [exact Hnd'|].
    eapply Permutation_in; [exact Hperm|]; now apply valueOf_Some.
  - symmetry; apply valueOf_None; intros Hin.
    apply valueOf_None in E; apply E.
    eapply Permutation_in; [symmetry; exact Hnames|exact Hin].
Qed.

(** The counts an extraction returns are decided by what the three searches
    find in the summary record. *)
Lemma getStats_counts_by_args (env env' : Env) (text text' line line' : jsstring)
      (w w' : world) :
  exec summaryRe text = Some line ->
  exec summaryRe text' = Some line' ->
  (forall a, In a statArgs -> exec (argRe a) line = exec (argRe a) line') ->
  counts (fst (getStats env text w)) = counts (fst (getStats env' text' w')).
Proof.
  intros Hl Hl' Hargs; unfold getStats, getArg; rewrite Hl, Hl'.
  rewrite <- (Hargs (lit "pass")) by (simpl; tauto).
  rewrite <- (Hargs (lit "fail")) by (simpl; tauto).
  rewrite <- (Hargs (lit "skip")) by (simpl; tauto).
  unfold_monad.
  destruct (exec (argRe (lit "pass")) line); [|reflexivity].
  destruct (exec (argRe (lit "fail")) line); [|reflexivity].
  destruct (exec (argRe (lit "skip")) line); reflexivity.
Qed.

Lemma statArgs_no_space (a : jsstring) :
  In a statArgs -> Forall (fun c => isSpace c = false) a.
Proof.
  intros [<-|[<-|[<-|[]]]]; repeat constructor.
Qed.

(** C8, as the claim states it, fails.  Two records with the same attributes
    in two orders give two different counts when another attribute has a name
    that ends in [pass]; and a record with white space around the [=] of
    [pass] gives no counts at all. *)
Lemma attribute_order_counterexample :
  let first := [spaced "bypass" "7"; spaced "pass" "1"; spaced "fail" "0";
                spaced "skip" "0"] in
  let second := [spaced "pass" "1"; spaced "bypass" "7"; spaced "fail" "0";
                 spaced "skip" "0"] in
  let env := sampleEnv (inl []) in
  Permutation first second
  /\ render first []
     = xml "<stat bypass='7' pass='1' fail='0' skip='0'>All Tests</stat>"
  /\ render second []
     = xml "<stat pass='1' bypass='7' fail='0' skip='0'>All Tests</stat>"
  /\ counts (fst (getStats env (render first []) start))
     = Normal (Some (7%float, 0%float, 0%float, 100%float))
  /\ counts (fst (getStats env (render second []) start))
     = Normal (Some (1%float, 0%float, 0%float, 100%float))
  /\ counts (fst (getStats env
                    (xml "<stat pass = '1' fail='0' skip='0'>All Tests</stat>")
                    start))
     = Throw (lit "Error getting pass from XML").
Proof.
  intros first second env; split; [apply perm_swap|].
  repeat split; now vm_compute.
Qed.

(** C8, amended.  Take two records written as attributes [name="value"],
    each after some white space, with names and values free of white space,
    double quotes, [=] and [>], the names of a record all different and none
    of them merely ending in [pass], [fail] or [skip].  If the attributes of
    the one are those of the other in another order, whatever the white space
    and whatever other attributes there are, the two extractions give the same
    counts. *)
Theorem counts_do_not_depend_on_order (env env' : Env)
        (text text' : jsstring) (attrs attrs' : list attr)
        (trail trail' : jsstring) (w w' : world) :
  exec summaryRe text = Some (render attrs trail) ->
  exec summaryRe text' = Some (render attrs' trail') ->
  Forall wfAttr attrs -> Forall wfAttr attrs' ->
  Forall (fun c => isSpace c = true) trail ->
  Forall (fun c => isSpace c = true) trail' ->
  NoDup (map name attrs) ->
  (forall x a, In x attrs -> In a statArgs ->
               endsWith a (name x) = true -> name x = a) ->
  Permutation (map nameVal attrs) (map nameVal attrs') ->
  counts (fst (getStats env text w)) = counts (fst (getStats env' text' w')).
Proof.
  intros Hl Hl' Hwf Hwf' Ht Ht' Hnd Hsuffix Hperm.
  apply (getStats_counts_by_args env env' text text' _ _ w w' Hl Hl').
  intros a Ha.
  rewrite !exec_argRe_render by (trivial; now apply statArgs_no_space).
  rewrite !lookupArg_valueOf.
  - now apply valueOf_permutation.
  - intros x' Hx' Hends.
    assert (Hin : In (name x') (map name attrs)).
    { apply (Permutation_in (l := map name attrs')).
      - rewrite !names_of_pairs; apply Permutation_map; symmetry; exact Hperm.
      - now apply in_map. }
    apply in_map_iff in Hin; destruct Hin as (x & Hname & Hx).
    rewrite <- Hname in *; now apply (Hsuffix x a).
  - intros x Hx; now apply Hsuffix.
Qed.

(** Two reports whose summary records have the same four attributes in two
    orders and with different white space. *)
Lemma counts_do_not_depend_on_order_witness :
  let attrs := [spaced "pass" "8"; spaced "fail" "2"; spaced "skip" "0";
                spaced "id" "s1"] in
  let attrs' := [ {| pad := [10%N; 32%N]; name := lit "id"; val := lit "s1" |};
                  {| pad := [9%N]; name := lit "skip"; val := lit "0" |};
                  spaced "fail" "2"; spaced "pass" "8" ] in
  let text := xml "<total><stat pass='8' fail='2' skip='0' id='s1'>All Tests</stat></total>" in
  let text' := lit "<total>" ++ render attrs' [32%N] ++ lit "</total>" in
  let env := sampleEnv (inr text) in
  exec summaryRe text = Some (render attrs [])
  /\ exec summaryRe text' = Some (render attrs' [32%N])
  /\ counts (fst (getStats env text start))
     = counts (fst (getStats env text' start))
  /\ counts (fst (getStats env text start))
     = Normal (Some (8%float, 2%float, 0%float, 80%float)).
Proof.
  intros attrs attrs' text text' env.
  assert (H1 : exec summaryRe text = Some (render attrs [])) by now vm_compute.
  assert (H2 : exec summaryRe text' = Some (render attrs' [32%N]))
    by now vm_compute.
  split; [exact H1|split; [exact H2|split; [|now vm_compute]]].
  apply (counts_do_not_depend_on_order env env text text' attrs attrs'
           [] [32%N] start start H1 H2).
  - repeat constructor; try discriminate.
  - repeat constructor; try discriminate.
  - constructor.
  - repeat constructor.
  - repeat constructor; simpl; intuition discriminate.
  - intros x a Hx Ha.
    repeat (destruct Hx as [<-|Hx]; [repeat (destruct Ha as [<-|Ha];
      [try reflexivity; try discriminate|]); destruct Ha|]); destruct Hx.
  - change (map nameVal attrs') with (rev (map nameVal attrs)).
    apply Permutation_rev.
Defined.

(** * Further properties of the program *)

(** X1.  The summary pattern finds a record exactly in the texts that hold
    one, and what it finds is a summary record of the text. *)
Theorem summary_search_is_exact (text : jsstring) :
  ((exists line, exec summaryRe text = Some line) <-> hasSummaryRecord text)
  /\ (forall line, exec summaryRe text = Some line ->
                   isSummaryRecord line /\ occursIn line text).
Proof.
  split; [split|].
  - intros [line H]; apply exec_summaryRe_sound in H.
    destruct H as (pre & post & -> & H); now exists pre, line, post.
  - apply exec_summaryRe_complete.
  - intros line H; apply exec_summaryRe_sound in H.
    destruct H as (pre & post & -> & H); split; [exact H|now exists pre, post].
Qed.





(** [getStats] only logs: it hands nothing to the webhook and does not mark
    the run failed. *)
Lemma getStats_frame (env : Env) (text : jsstring) (w : world) :
  failure (snd (getStats env text w)) = failure w
  /\ outbox (snd (getStats env text w)) = outbox w.
Proof.
  unfold getStats, getArg.
  destruct (exec summaryRe text) as [line|]; [|now split].
  unfold_monad.
  destruct (exec (argRe (lit "pass")) line); [|now split].
  destruct (exec (argRe (lit "fail")) line); [|now split].
  destruct (exec (argRe (lit "skip")) line); now split.
Qed.

(** X4.  A run hands at most one message to the webhook. *)
Theorem at_most_one_message (cfg : Config) (env : Env) :
  (length (outbox (snd (run cfg env start))) <= 1)%nat.
Proof.
  unfold run, getResults.
  destruct (readFile env (outputXmlPath cfg)) as [err|text].
  - unfold_monad; destruct (alertChannelOnNoOutput cfg); [|simpl; lia].
    unfold sendSlackMessage; destruct (webhookSend env _ _); simpl; lia.
  - unfold_monad; destruct text as [|c text].
    + destruct (alertChannelOnNoOutput cfg); [|simpl; lia].
      unfold sendSlackMessage; destruct (webhookSend env _ _); simpl; lia.
    + match goal with
      | |- context [getStats env ?t ?w0] =>
          pose proof (getStats_frame env t w0) as [_ Hout];
          destruct (getStats env t w0) as [[[st|]|e] w1]
      end; cbn [snd outbox] in *.
      * unfold sendStats, sendSlackMessage.
        destruct (webhookSend env _ _); cbn [snd outbox]; rewrite Hout;
          simpl; lia.
      * rewrite Hout; simpl; lia.
      * rewrite Hout; simpl; lia.
Qed.

(** X5.  When the webhook refuses the message of the statistics, the error
    is caught and the run is marked failed with its message. *)
Theorem delivery_failure_fails_the_run (cfg : Config) (env : Env)
        (text : jsstring) (stats : Stats) (e : jsstring) :
  readFile env (outputXmlPath cfg) = inr text ->
  text <> [] ->
  (forall w, getStats env text w = (Normal (Some stats), w)) ->
  webhookSend env (slackWebhookUrl cfg) (statsMessage cfg env stats) = Some e ->
  run cfg env start
  = (Normal tt, {| log := [runningLine; (Error, e)]; failure := true;
                   outbox := [statsMessage cfg env stats] |})
  /\ outcome (run cfg env start) = Failed e
  /\ exitCode (run cfg env start) = 1%Z.
Proof.
  intros Hread Hne Hstats Hsend.
  rewrite (run_found cfg env text stats Hread Hne Hstats), Hsend.
  repeat split.
Qed.

Lemma delivery_failure_fails_the_run_witness :
  let cfg := sampleConfig true false false false in
  let text := report "<stat pass='8' fail='2' skip='0'>All Tests</stat>" in
  let env := refusingEnv (inr text) (lit "An HTTP protocol error occurred") in
  outcome (run cfg env start) = Failed (lit "An HTTP protocol error occurred")
  /\ exitCode (run cfg env start) = 1%Z.
Proof.
  intros cfg text env.
  refine (proj2 (delivery_failure_fails_the_run cfg env text _ _
                   eq_refl ltac:(discriminate)
                   (fun w => getStats_found env text
                               (xml "<stat pass='8' fail='2' skip='0'>All Tests</stat>")
                               (lit "8") (lit "2") (lit "0") w
                               ltac:(now vm_compute) ltac:(now vm_compute)
                               ltac:(now vm_compute) ltac:(now vm_compute))
                   eq_refl)).
Defined.





(** X8.  An empty report is taken for a missing one: the run does what it
    does when the file cannot be read, the error line of the failed read
    apart, and never calls [core.setFailed]. *)
Theorem empty_report_is_no_report (cfg : Config) (env : Env) :
  readFile env (outputXmlPath cfg) = inr [] ->
  failure (snd (run cfg env start)) = false
  /\ outbox (snd (run cfg env start))
     = (if alertChannelOnNoOutput cfg then [noOutputMessage cfg] else [])
  /\ log (snd (run cfg env start)) = [runningLine].
Proof.
  intros Hread; unfold run, getResults; rewrite Hread; unfold_monad.
  destruct (alertChannelOnNoOutput cfg); [|now repeat split].
  unfold sendSlackMessage; fold (noOutputMessage cfg).
  now destruct (webhookSend env _ _).
Qed.

Lemma empty_report_is_no_report_witness :
  outbox (snd (run (sampleConfig true true true true) (sampleEnv (inr []))
                 start))
  = [noOutputMessage (sampleConfig true true true true)].
Proof.
  exact (proj1 (proj2 (empty_report_is_no_report
                         (sampleConfig true true true true)
                         (sampleEnv (inr [])) eq_refl))).
Defined.

(** * The searches in any text *)

(** The search returns the match at the first position that has one. *)
Lemma execFrom_leftmost (r : regex) (rest before m : jsstring) :
  execFrom r before rest = Some m ->
  exists u v,
    rest = u ++ v /\ matchHere r (rev u ++ before) [] v = Some m
    /\ forall u1 u2, u = u1 ++ u2 -> u2 <> [] ->
                     matchHere r (rev u1 ++ before) [] (u2 ++ v) = None.
Proof.
  revert before; induction rest as [|x rest IH]; intros before; simpl.
  - destruct (matchHere r before [] []) eqn:E; [|discriminate].
    intros [= ->]; exists [], []; repeat split; trivial.
    intros u1 u2 H Hne; symmetry in H; apply app_eq_nil in H.
    destruct H; contradiction.
  - destruct (matchHere r before [] (x :: rest)) eqn:E.
    + intros [= ->]; exists [], (x :: rest); repeat split; trivial.
      intros u1 u2 H Hne; symmetry in H; apply app_eq_nil in H.
      destruct H; contradiction.
    + intros H; destruct (IH _ H) as (u & v & -> & Hm & Hleft).
      exists (x :: u), v; split; [reflexivity|split].
      * simpl; now rewrite <- app_assoc.
      * intros u1 u2 Hu Hne; destruct u1 as [|y u1].
        -- simpl in Hu; subst u2; exact E.
        -- injection Hu as <- Hu.
           specialize (Hleft u1 u2 Hu Hne).
           simpl; now rewrite <- app_assoc.
Qed.

(** At the start of a summary record the summary pattern matches that
    record. *)
Lemma matchHere_summaryRe_record (before line post : jsstring) :
  isSummaryRecord line ->
  matchHere summaryRe before [] (line ++ post) = Some line.
Proof.
  intros (mid & -> & Hne & Hmid).
  rewrite matchHere_summaryRe, <- !app_assoc, strip_prefix_app.
  apply greedy_longest; [exact Hne| |reflexivity|].
  - eapply Forall_impl; [|exact Hmid]; simpl; intros c Hc.
    destruct (N.eqb_spec c c_gt); [contradiction|reflexivity].
  - rewrite strip_prefix_app, !rev_app_distr, !rev_involutive.
    now rewrite <- app_assoc.
Qed.

Lemma prefix_split (a b c d : jsstring) :
  a ++ b = c ++ d -> (length c < length a)%nat ->
  exists l, l <> [] /\ a = c ++ l /\ d = l ++ b.
Proof.
  revert c; induction a as [|x a IH]; intros c H Hlen; [simpl in Hlen; lia|].
  destruct c as [|y c].
  - exists (x :: a); repeat split; [discriminate|now simpl in *].
  - injection H as <- H; simpl in Hlen.
    destruct (IH c H ltac:(lia)) as (l & Hl & -> & ->).
    now exists l.
Qed.

Lemma same_length_prefix (a b c d : jsstring) :
  a ++ b = c ++ d -> length a = length c -> a = c /\ b = d.
Proof.
  revert c; induction a as [|x a IH]; intros [|y c] H Hlen; try discriminate.
  - now split.
  - injection H as <- H; injection Hlen as Hlen.
    destruct (IH c H Hlen) as [-> ->]; now split.
Qed.

(** X9.  Of several summary records the first is taken: the record the
    search returns starts at the first place of the text where a summary
    record starts, and it is the only summary record that starts there. *)
Theorem first_summary_record_wins (text line : jsstring) :
  exec summaryRe text = Some line ->
  exists pre post,
    text = pre ++ line ++ post /\ isSummaryRecord line
    /\ forall pre' line' post',
         text = pre' ++ line' ++ post' -> isSummaryRecord line' ->
         (length pre <= length pre')%nat
         /\ (length pre' = length pre -> line' = line).
Proof.
  intros H.
  destruct (exec_summaryRe_sound text line H) as (_ & _ & _ & Hrec).
  apply execFrom_leftmost in H; destruct H as (pre & v & -> & Hm & Hleft).
  rewrite app_nil_r in Hm.
  assert (Hv : exists post, v = line ++ post).
  { rewrite matchHere_summaryRe in Hm.
    destruct (strip_prefix openTag v) as [r|] eqn:E1; [|discriminate].
    apply strip_prefix_Some in E1; subst v.
    apply greedy_sound in Hm; destruct Hm as (mid & v2 & -> & _ & _ & Hm).
    destruct (strip_prefix closeTag v2) as [post|] eqn:E2; [|discriminate].
    apply strip_prefix_Some in E2; subst v2; exists post.
    assert (E : rev (rev closeTag ++ rev mid ++ rev openTag) = line)
      by congruence.
    rewrite <- E, !rev_app_distr, !rev_involutive.
    now rewrite <- !app_assoc. }
  destruct Hv as [post ->].
  exists pre, post; split; [reflexivity|split; [exact Hrec|]].
  intros pre' line' post' Htext Hrec'.
  assert (Hle : (length pre <= length pre')%nat).
  { destruct (Nat.le_gt_cases (length pre) (length pre')) as [|Hlt]; [easy|].
    exfalso.
    destruct (prefix_split pre (line ++ post) pre' (line' ++ post') Htext Hlt)
      as (l & Hl & Hpre & Hrest).
    specialize (Hleft pre' l Hpre Hl).
    rewrite app_nil_r, <- Hrest in Hleft.
    rewrite (matchHere_summaryRe_record _ _ _ Hrec') in Hleft; discriminate. }
  split; [exact Hle|intros Hlen].
  assert (Hsame : pre' = pre /\ line' ++ post' = line ++ post).
  { symmetry in Htext; now apply same_length_prefix. }
  destruct Hsame as [-> Hsame].
  rewrite <- Hsame, (matchHere_summaryRe_record _ _ _ Hrec') in Hm.
  congruence.
Qed.

Lemma first_summary_record_wins_witness :
  let first := xml "<stat pass='1' fail='0' skip='0'>All Tests</stat>" in
  let text := xml "<msg><stat pass='1' fail='0' skip='0'>All Tests</stat></msg><total><stat pass='9' fail='9' skip='9'>All Tests</stat></total>" in
  exec summaryRe text = Some first
  /\ exists pre post,
       text = pre ++ first ++ post /\ isSummaryRecord first
       /\ forall pre' line' post',
            text = pre' ++ line' ++ post' -> isSummaryRecord line' ->
            (length pre <= length pre')%nat
            /\ (length pre' = length pre -> line' = first).
Proof.
  intros first text.
  assert (H : exec summaryRe text = Some first) by now vm_compute.
  split; [exact H|exact (first_summary_record_wins text first H)].
Defined.



(** ** The generation stamp *)

Lemma matchHere_generatedRe (before rest : jsstring) :
  matchHere generatedRe before [] rest =
  if starts_with (rev (lit "generated=" ++ [c_quote])) before
  then greedy (fun c => negb (N.eqb c c_quote))
         (fun acc r => if starts_with [c_quote] r then Some (rev acc) else None)
         [] rest
  else None.
Proof. reflexivity. Qed.

(** X11.  The string handed to the date parser is empty exactly when the
    text nowhere has [generated=], a double quote, at least one character
    other than the double quote, and a double quote; otherwise it is such a
    run of characters, taken from the text. *)
Theorem generatedOf_is_exact (text : jsstring) :
  (generatedOf text <> [] <->
   exists g, g <> [] /\ Forall (fun c => c <> c_quote) g
             /\ occursIn (lit "generated=" ++ [c_quote] ++ g ++ [c_quote]) text)
  /\ (generatedOf text <> [] ->
      Forall (fun c => c <> c_quote) (generatedOf text)
      /\ occursIn (lit "generated=" ++ [c_quote] ++ generatedOf text
                   ++ [c_quote]) text).
Proof.
  assert (Hsound : forall g, exec generatedRe text = Some g ->
            g <> [] /\ Forall (fun c => c <> c_quote) g
            /\ occursIn (lit "generated=" ++ [c_quote] ++ g ++ [c_quote]) text).
  { intros g E.
    apply execFrom_sound in E; destruct E as (u & rest & -> & H).
    rewrite matchHere_generatedRe, app_nil_r in H.
    destruct (starts_with _ (rev u)) eqn:S; [|discriminate].
    apply starts_with_true in S; destruct S as [r S].
    apply greedy_sound in H; destruct H as (val' & rest' & -> & Hne & Hval & H).
    destruct (starts_with [c_quote] rest') eqn:Q; [|discriminate].
    apply starts_with_true in Q; destruct Q as [post ->].
    rewrite app_nil_r, rev_involutive in H; injection H as <-.
    split; [exact Hne|split].
    - eapply Forall_impl; [|exact Hval]; simpl; intros c Hc ->; discriminate.
    - exists (rev r), post.
      apply (f_equal (@rev char)) in S.
      rewrite rev_involutive, rev_app_distr, rev_involutive in S.
      rewrite S, <- !app_assoc; reflexivity. }
  unfold generatedOf; split; [split|].
  - destruct (exec generatedRe text) as [g|] eqn:E; [|easy].
    intros _; exists g; now apply Hsound.
  - intros (g & Hne & Hg & pre & post & ->).
    destruct (execFrom_complete generatedRe
                (pre ++ lit "generated=" ++ [c_quote])
                (g ++ c_quote :: post) [] g) as [m Hm].
    + rewrite matchHere_generatedRe, app_nil_r, (rev_app_distr pre),
        starts_with_app.
      apply greedy_longest; [exact Hne| |reflexivity|].
      * eapply Forall_impl; [|exact Hg]; simpl; intros c Hc.
        destruct (N.eqb_spec c c_quote); [contradiction|reflexivity].
      * rewrite starts_with_cons, N.eqb_refl, app_nil_r, rev_involutive.
        reflexivity.
    + assert (Etext :
                pre ++ (lit "generated=" ++ [c_quote] ++ g ++ [c_quote]) ++ post
                = (pre ++ lit "generated=" ++ [c_quote]) ++ g ++ c_quote :: post)
        by (repeat (rewrite <- app_assoc; cbn [app]); reflexivity).
      rewrite Etext in *; unfold exec in *; rewrite Hm; intros ->.
      apply Hsound in Hm; now destruct Hm.
  - destruct (exec generatedRe text) as [g|] eqn:E; [|easy].
    intros _; now apply Hsound.
Qed.

(** * Counts and rates in any notation *)

Local Open Scope Z_scope.

Lemma digitsAux_acc (fuel : nat) (z : Z) (acc : jsstring) :
  digitsAux fuel z acc = digitsAux fuel z [] ++ acc.
Proof.
  revert z acc; induction fuel as [|fuel IH]; intros z acc; [reflexivity|].
  simpl; destruct (z <? 10); [reflexivity|].
  rewrite (IH _ (_ :: acc)), (IH _ [_]), <- app_assoc; reflexivity.
Qed.

(** More fuel than the digits need changes nothing. *)
Lemma digitsAux_fuel (fuel extra : nat) (z : Z) (acc : jsstring) :
  0 <= z < 10 ^ Z.of_nat (S fuel) ->
  digitsAux (S fuel + extra) z acc = digitsAux (S fuel) z acc.
Proof.
  revert z acc; induction fuel as [|fuel IH]; intros z acc Hz.
  - simpl in Hz |- *.
    replace (z <? 10) with true by (symmetry; apply Z.ltb_lt; lia).
    reflexivity.
  - change (digitsAux (S (S fuel) + extra) z acc)
      with (if z <? 10 then digitChar z :: acc
            else digitsAux (S fuel + extra) (z / 10)
                   (digitChar (z mod 10) :: acc)).
    change (digitsAux (S (S fuel)) z acc)
      with (if z <? 10 then digitChar z :: acc
            else digitsAux (S fuel) (z / 10) (digitChar (z mod 10) :: acc)).
    destruct (Z.ltb_spec z 10); [reflexivity|].
    apply IH; split; [apply Z.div_pos; lia|].
    apply Z.div_lt_upper_bound; [lia|].
    replace (Z.of_nat (S (S fuel))) with (1 + Z.of_nat (S fuel)) in Hz by lia.
    rewrite Z.pow_add_r in Hz by lia; lia.
Qed.

Lemma digitsOf_small (n : Z) : 0 <= n < 10 -> digitsOf n = [digitChar n].
Proof.
  intros H; unfold digitsOf; simpl.
  replace (n <? 10) with true by (symmetry; apply Z.ltb_lt; lia).
  reflexivity.
Qed.

(** The digits of a number of two digits or more: those of its tenth, then
    its last digit. *)
Lemma digitsOf_step (n : Z) :
  10 <= n -> digitsOf n = digitsOf (n / 10) ++ [digitChar (n mod 10)].
Proof.
  intros Hn; unfold digitsOf at 1.
  change (digitsAux (S (Z.to_nat (Z.log2 n))) n [])
    with (if n <? 10 then [digitChar n]
          else digitsAux (Z.to_nat (Z.log2 n)) (n / 10) [digitChar (n mod 10)]).
  replace (n <? 10) with false by (symmetry; apply Z.ltb_ge; lia).
  rewrite digitsAux_acc; f_equal; unfold digitsOf.
  assert (Hq : 1 <= n / 10) by (apply Z.div_le_lower_bound; lia).
  assert (Hlog : Z.log2 (n / 10) < Z.log2 n).
  { apply Z.log2_lt_pow2; [lia|].
    pose proof (Z.log2_spec n ltac:(lia)) as [Hlo _].
    apply Z.div_lt_upper_bound; [lia|].
    pose proof (Z.pow_pos_nonneg 2 (Z.log2 n) ltac:(lia) (Z.log2_nonneg n)).
    pose proof (Z.log2_spec n ltac:(lia)) as [_ Hhi].
    rewrite Z.pow_succ_r in Hhi by apply Z.log2_nonneg; lia. }
  pose proof (Z.log2_nonneg (n / 10)).
  replace (Z.to_nat (Z.log2 n))
    with (S (Z.to_nat (Z.log2 (n / 10)))
          + (Z.to_nat (Z.log2 n) - S (Z.to_nat (Z.log2 (n / 10)))))%nat by lia.
  apply digitsAux_fuel; split; [lia|apply digitsOf_bound; lia].
Qed.

(** [parseInt] on an optional minus sign, the digits of [q] and whatever
    ends the count. *)
Lemma parseInt_signed_digits (negative : bool) (q : Z) (rest : jsstring) :
  0 <= q -> endsCount rest ->
  parseInt ((if negative then [c_minus] else []) ++ digitsOf q ++ rest)
  = signedCount negative q.
Proof.
  intros Hq Hrest.
  assert (Hread : readDigits 10 (digitsOf q ++ rest) false 0 = Some q).
  { unfold digitsOf; rewrite <- digitsAux_acc.
    destruct (readDigits_digitsAux (Z.to_nat (Z.log2 q)) q) as (k & _ & Hk);
      [split; [exact Hq|now apply digitsOf_bound]|].
    rewrite Hk; simpl (0 * _ + _).
    destruct rest as [|c rest]; [reflexivity|].
    destruct Hrest as (Hc & _); simpl; now rewrite Hc. }
  pose proof (digitsAux_isDigit (S (Z.to_nat (Z.log2 q))) q [] Hq
                (Forall_nil _)) as Hall.
  pose proof (digitsAux_nonempty (Z.to_nat (Z.log2 q)) q []) as Hne.
  fold (digitsOf q) in Hall, Hne.
  destruct (digitsOf q) as [|c r]; [contradiction|].
  inversion Hall as [|? ? Hc Hr]; subst.
  destruct (isDigit_cases c Hc) as (Hsp & Hmi & Hpl & _).
  assert (Hcc : (c = 48 \/ c = 49 \/ c = 50 \/ c = 51 \/ c = 52 \/ c = 53
                 \/ c = 54 \/ c = 55 \/ c = 56 \/ c = 57)%N)
    by (unfold isDigit in Hc; lia).
  assert (Hx : match r ++ rest with
               | [] => True
               | x :: _ => N.eqb x 120 || N.eqb x 88 = false
               end).
  { destruct r as [|x r'].
    - destruct rest as [|x rest']; [exact I|].
      destruct Hrest as (_ & H120 & H88); simpl.
      destruct (N.eqb_spec x 120); [contradiction|].
      destruct (N.eqb_spec x 88); [contradiction|reflexivity].
    - inversion Hr as [|? ? Hx _]; subst.
      destruct (isDigit_cases x Hx) as (_ & _ & _ & H120 & H88).
      simpl; now rewrite H120, H88. }
  unfold parseInt, signedCount; destruct negative; cbn [app trimStart].
  - replace (isSpace c_minus) with false by reflexivity.
    rewrite N.eqb_refl.
    match goal with
    | |- (let '(radix, s3) := ?m in _) = _ =>
        assert (Hradix : m = (10, c :: r ++ rest));
          [|rewrite Hradix; cbn [app] in Hread; rewrite Hread; now destruct q]
    end.
    destruct (r ++ rest) as [|x l].
    + repeat (destruct Hcc as [->|Hcc]; [reflexivity|]); now subst.
    + rewrite Hx.
      repeat (destruct Hcc as [->|Hcc]; [reflexivity|]); now subst.
  - rewrite Hsp, Hmi, Hpl.
    match goal with
    | |- (let '(radix, s3) := ?m in _) = _ =>
        assert (Hradix : m = (10, c :: r ++ rest));
          [|rewrite Hradix; cbn [app] in Hread; rewrite Hread; now destruct q]
    end.
    destruct (r ++ rest) as [|x l].
    + repeat (destruct Hcc as [->|Hcc]; [reflexivity|]); now subst.
    + rewrite Hx.
      repeat (destruct Hcc as [->|Hcc]; [reflexivity|]); now subst.
Qed.

Local Close Scope Z_scope.

Local Open Scope Z_scope.

Lemma firstn_skipn_last (l : jsstring) (d : char) :
  firstn (length (l ++ [d]) - 1) (l ++ [d]) = l
  /\ skipn (length (l ++ [d]) - 1) (l ++ [d]) = [d].
Proof.
  rewrite length_app; simpl length.
  replace (length l + 1 - 1)%nat with (length l) by lia; split.
  - rewrite firstn_app, Nat.sub_diag, firstn_all; simpl; apply app_nil_r.
  - rewrite skipn_app, Nat.sub_diag, skipn_all; reflexivity.
Qed.

Lemma tenths_nonneg (m : positive) (e : Z) : 0 <= tenths m e.
Proof.
  unfold tenths; destruct (0 <=? e) eqn:E.
  - apply Z.div_pos; [|lia].
    pose proof (Z.pow_nonneg 2 e ltac:(lia)); nia.
  - apply Z.div_pos.
    + pose proof (Z.pow_nonneg 2 (- e) ltac:(lia)); lia.
    + pose proof (Z.pow_pos_nonneg 2 (- e) ltac:(lia)
                    ltac:(apply Z.leb_gt in E; lia)); lia.
Qed.

(** What [toFixed(1)] prints for a rate below [10^21]: the sign, the digits
    of the whole tenths, a point, the last digit. *)
Lemma toFixed1_print (x : number) (sg : bool) (m : positive) (e : Z) :
  Prim2SF x = S754_finite sg m e -> belowFixedLimit m e ->
  toFixed1 x = (if sg then [c_minus] else [])
               ++ digitsOf (tenths m e / 10)
               ++ c_dot :: [digitChar (tenths m e mod 10)].
Proof.
  intros Hx Hlim; unfold toFixed1; rewrite Hx.
  unfold belowFixedLimit in Hlim; cbv zeta in Hlim.
  replace (10 ^ 21 * (if 0 <=? e then 1 else 2 ^ (- e))
           <=? (if 0 <=? e then Z.pos m * 2 ^ e else Z.pos m))
    with false by (symmetry; apply Z.leb_gt; exact Hlim).
  fold (tenths m e); pose proof (tenths_nonneg m e) as Hn.
  set (n := tenths m e) in *; cbv zeta; f_equal.
  destruct (Z.lt_ge_cases n 10) as [Hlt|Hge].
  - rewrite (digitsOf_small n) by lia.
    rewrite Z.div_small, Z.mod_small by lia; reflexivity.
  - rewrite (digitsOf_step n Hge).
    assert (Hlen : (Z.of_nat (length (digitsOf (n / 10)
                                      ++ [digitChar (n mod 10)])) <=? 1)
                   = false).
    { apply Z.leb_gt; rewrite length_app; simpl length.
      pose proof (digitsAux_nonempty (Z.to_nat (Z.log2 (n / 10))) (n / 10) [])
        as Hne.
      fold (digitsOf (n / 10)) in Hne.
      destruct (digitsOf (n / 10)); [contradiction|simpl; lia]. }
    rewrite Hlen.
    destruct (firstn_skipn_last (digitsOf (n / 10)) (digitChar (n mod 10)))
      as [-> ->].
    reflexivity.
Qed.

(** Read back with [parseInt], the print of a rate gives the whole part of
    the rate in tenths. *)
Lemma parseInt_toFixed1 (x : number) (sg : bool) (m : positive) (e : Z) :
  Prim2SF x = S754_finite sg m e -> belowFixedLimit m e ->
  parseInt (toFixed1 x) = signedCount sg (tenths m e / 10).
Proof.
  intros Hx Hlim; rewrite (toFixed1_print x sg m e Hx Hlim).
  apply parseInt_signed_digits.
  - apply Z.div_pos; [apply tenths_nonneg|lia].
  - repeat split; discriminate.
Qed.

Local Close Scope Z_scope.

(** X12.  The success rate is cut to a whole number.  For counts that give a
    rate other than zero, finite and below [10^21], the rate is rounded to
    the nearest tenth, printed, and read back up to the decimal point: the
    statistics hold the whole part of the rate in tenths, with its sign, not
    the rate to one decimal. *)
Theorem successRate_is_cut_to_a_whole_number (env : Env)
        (text line vp vf vs : jsstring) (w : world)
        (sg : bool) (m : positive) (e : Z) :
  exec summaryRe text = Some line ->
  exec (argRe (lit "pass")) line = Some vp ->
  exec (argRe (lit "fail")) line = Some vf ->
  exec (argRe (lit "skip")) line = Some vs ->
  Prim2SF (rawRate (parseInt vp) (parseInt vf) (parseInt vs))
  = S754_finite sg m e ->
  belowFixedLimit m e ->
  exists st,
    getStats env text w = (Normal (Some st), w)
    /\ toFixed1 (rawRate (passed st) (failed st) (skipped st))
       = (if sg then [c_minus] else [])
         ++ digitsOf (tenths m e / 10)
         ++ c_dot :: [digitChar (tenths m e mod 10)]
    /\ successRate st = signedCount sg (tenths m e / 10).
Proof.
  intros Hline Hp Hf Hs Hx Hlim; eexists; split.
  - exact (getStats_found env text line vp vf vs w Hline Hp Hf Hs).
  - cbn [passed failed skipped successRate]; split.
    + exact (toFixed1_print _ sg m e Hx Hlim).
    + exact (parseInt_toFixed1 _ sg m e Hx Hlim).
Qed.

Lemma successRate_is_cut_to_a_whole_number_witness :
  let text := report "<stat pass='2' fail='1' skip='0'>All Tests</stat>" in
  Prim2SF (rawRate 2%float 1%float 0%float) = S754_finite false 4691249611844266 (-46)
  /\ tenths 4691249611844266 (-46) = 667%Z
  /\ exists st,
       getStats (sampleEnv (inr text)) text start = (Normal (Some st), start)
       /\ successRate st = 66%float.
Proof.
  intros text.
  assert (Hx : Prim2SF (rawRate (parseInt (lit "2")) (parseInt (lit "1"))
                          (parseInt (lit "0")))
               = S754_finite false 4691249611844266 (-46)) by now vm_compute.
  split; [now vm_compute|split; [now vm_compute|]].
  destruct (successRate_is_cut_to_a_whole_number (sampleEnv (inr text)) text
              (xml "<stat pass='2' fail='1' skip='0'>All Tests</stat>")
              (lit "2") (lit "1") (lit "0") start
              false 4691249611844266 (-46)
              ltac:(now vm_compute) ltac:(now vm_compute)
              ltac:(now vm_compute) ltac:(now vm_compute) Hx
              ltac:(now vm_compute))
    as (st & Hst & _ & Hrate).
  exists st; split; [exact Hst|rewrite Hrate; now vm_compute].
Defined.



(** * The run as a whole *)

Lemma getStats_result_any_world (env : Env) (text : jsstring) (w : world) :
  fst (getStats env text w) = extraction env text.
Proof.
  unfold extraction, getStats, getArg.
  destruct (exec summaryRe text) as [line|]; [|reflexivity].
  unfold_monad.
  destruct (exec (argRe (lit "pass")) line); [|reflexivity].
  destruct (exec (argRe (lit "fail")) line); [|reflexivity].
  destruct (exec (argRe (lit "skip")) line); reflexivity.
Qed.

(** X14.  [getStats] leaves the world as it found it when it returns
    statistics; when it does not, it adds one error line and nothing else:
    the line for a missing summary record when it returns nothing, the
    message it throws, which names one of the three arguments, when it
    throws.  It never marks the run failed and hands nothing to the
    webhook. *)
Theorem getStats_trace (env : Env) (text : jsstring) (w : world) :
  match fst (getStats env text w) with
  | Normal (Some _) => snd (getStats env text w) = w
  | Normal None =>
      exec summaryRe text = None
      /\ snd (getStats env text w)
         = {| log := log w ++ [(Error, noStatsError)];
              failure := failure w; outbox := outbox w |}
  | Throw e =>
      (exists arg, In arg statArgs /\ e = getArgError arg)
      /\ snd (getStats env text w)
         = {| log := log w ++ [(Error, e)];
              failure := failure w; outbox := outbox w |}
  end.
Proof.
  unfold getStats, getArg.
  destruct (exec summaryRe text) as [line|]; [|now split].
  unfold_monad.
  destruct (exec (argRe (lit "pass")) line);
    [|split; [exists (lit "pass"); simpl; tauto|reflexivity]].
  destruct (exec (argRe (lit "fail")) line);
    [|split; [exists (lit "fail"); simpl; tauto|reflexivity]].
  destruct (exec (argRe (lit "skip")) line);
    [reflexivity|split; [exists (lit "skip"); simpl; tauto|reflexivity]].
Qed.

(** The run on a report that was read and is not empty, in terms of the
    extraction. *)
Lemma run_on_report (cfg : Config) (env : Env) (c : char) (t : jsstring) :
  readFile env (outputXmlPath cfg) = inr (c :: t) ->
  fst (run cfg env start) = Normal tt
  /\ (failure (snd (run cfg env start)) = false <->
      exists st, extraction env (c :: t) = Normal (Some st)
                 /\ webhookSend env (slackWebhookUrl cfg)
                      (statsMessage cfg env st) = None)
  /\ (forall m, In m (outbox (snd (run cfg env start))) ->
                exists st, extraction env (c :: t) = Normal (Some st)
                           /\ m = statsMessage cfg env st).
Proof.
  intros Hread; unfold run, getResults; rewrite Hread; unfold_monad.
  match goal with
  | |- context [getStats env ?x ?w0] =>
      pose proof (getStats_result_any_world env x w0) as Hfst;
      pose proof (getStats_frame env x w0) as [Hfail Hout];
      destruct (getStats env x w0) as [[[st|]|e] w1]
  end; cbn [fst snd] in *; rewrite <- Hfst.
  - unfold sendStats, sendSlackMessage; fold (statsMessage cfg env st).
    destruct (webhookSend env _ _) as [e|] eqn:Hsend;
      cbn [fst snd failure outbox]; rewrite ?Hout; cbn [outbox start app].
    + split; [reflexivity|split; [split; [discriminate|]|]].
      * intros (st' & [= <-] & H); congruence.
      * intros m [<-|[]]; now exists st.
    + rewrite Hfail; split; [reflexivity|split; [split; [|reflexivity]|]].
      * intros _; now exists st.
      * intros m [<-|[]]; now exists st.
  - cbn [fst snd failure outbox]; rewrite Hout.
    split; [reflexivity|split; [split; [discriminate|]|]].
    + intros (st' & H & _); discriminate.
    + intros m [].
  - cbn [fst snd failure outbox]; rewrite Hout.
    split; [reflexivity|split; [split; [discriminate|]|]].
    + intros (st' & H & _); discriminate.
    + intros m [].
Qed.

(** The run when there is no report, or an empty one. *)
Lemma run_on_no_report (cfg : Config) (env : Env) :
  match readFile env (outputXmlPath cfg) with
  | inr (_ :: _) => False
  | _ => True
  end ->
  failure (snd (run cfg env start)) = false
  /\ fst (run cfg env start)
     = (if alertChannelOnNoOutput cfg
        then match webhookSend env (slackWebhookUrl cfg) (noOutputMessage cfg)
             with
             | None => Normal tt
             | Some e => Throw e
             end
        else Normal tt)
  /\ outbox (snd (run cfg env start))
     = (if alertChannelOnNoOutput cfg then [noOutputMessage cfg] else []).
Proof.
  unfold run, getResults.
  destruct (readFile env (outputXmlPath cfg)) as [err|[|c t]]; [| |easy];
    intros _; unfold_monad;
    (destruct (alertChannelOnNoOutput cfg); [|now repeat split]);
    unfold sendSlackMessage; fold (noOutputMessage cfg);
    now destruct (webhookSend env _ _).
Qed.

(** X15.  The process ends with success exactly in these cases: a report
    was read and is not empty, the extraction returned statistics and the
    webhook took their message; or there was no report, or an empty one, and
    the alert for that was off or the webhook took the fallback message. *)
Theorem exit_status (cfg : Config) (env : Env) :
  exitCode (run cfg env start) = 0%Z <->
  match readFile env (outputXmlPath cfg) with
  | inr (c :: t) =>
      exists st, extraction env (c :: t) = Normal (Some st)
                 /\ webhookSend env (slackWebhookUrl cfg)
                      (statsMessage cfg env st) = None
  | _ =>
      alertChannelOnNoOutput cfg = false
      \/ webhookSend env (slackWebhookUrl cfg) (noOutputMessage cfg) = None
  end.
Proof.
  destruct (readFile env (outputXmlPath cfg)) as [err|[|c t]] eqn:Hread.
  1,2: pose proof (run_on_no_report cfg env) as H; rewrite Hread in H;
    destruct (H I) as (Hfail & Hfst & _); clear H;
    unfold exitCode; destruct (run cfg env start) as [r w];
    cbn [fst snd] in *; subst r;
    (destruct (alertChannelOnNoOutput cfg);
     [destruct (webhookSend env _ _)|]); try rewrite Hfail;
    split; intros; auto; try discriminate; intuition discriminate.
  destruct (run_on_report cfg env c t Hread) as (Hfst & Hfail & _).
  unfold exitCode; destruct (run cfg env start) as [r w];
    cbn [fst snd] in *; subst r.
  rewrite <- Hfail; destruct (failure w); split; congruence.
Qed.

(** X16.  [run] ends in an error that nothing catches in one case only:
    there is no report, or an empty one, the alert for that is on, and the
    webhook refuses the fallback message.  The error is the webhook's, and
    [core.setFailed] has not been called; a refusal of the statistics
    message, by contrast, is caught inside [run]. *)
Theorem run_rejects_only_on_fallback (cfg : Config) (env : Env) (e : jsstring) :
  (fst (run cfg env start) = Throw e <->
   match readFile env (outputXmlPath cfg) with
   | inr (_ :: _) => False
   | _ => True
   end
   /\ alertChannelOnNoOutput cfg = true
   /\ webhookSend env (slackWebhookUrl cfg) (noOutputMessage cfg) = Some e)
  /\ (fst (run cfg env start) = Throw e ->
      failure (snd (run cfg env start)) = false
      /\ outbox (snd (run cfg env start)) = [noOutputMessage cfg]
      /\ exitCode (run cfg env start) = 1%Z).
Proof.
  destruct (readFile env (outputXmlPath cfg)) as [err|[|c t]] eqn:Hread.
  1,2: pose proof (run_on_no_report cfg env) as H; rewrite Hread in H;
    destruct (H I) as (Hfail & Hfst & Hout); clear H;
    unfold exitCode; destruct (run cfg env start) as [r w];
    cbn [fst snd] in *; subst r;
    (destruct (alertChannelOnNoOutput cfg);
     [destruct (webhookSend env _ _)|]);
    (split; [split; [intros [= ->]; auto|intros (_ & H1 & H2); congruence]|]);
    intros H; try discriminate; auto.
  destruct (run_on_report cfg env c t Hread) as (Hfst & _).
  rewrite Hfst; split; [split; [discriminate|tauto]|discriminate].
Qed.

(** X17.  Whatever a run hands to the webhook is one of two messages: the
    fallback message, with the configured text and no attachment, or the
    message of the statistics that the extraction returned for the report;
    either way it carries the configured channel, user name and icon. *)
Theorem every_message_is_configured (cfg : Config) (env : Env) (m : message) :
  In m (outbox (snd (run cfg env start))) ->
  (m = noOutputMessage cfg
   \/ exists text st,
        readFile env (outputXmlPath cfg) = inr text
        /\ extraction env text = Normal (Some st)
        /\ m = statsMessage cfg env st)
  /\ channel m = slackChannel cfg
  /\ username m = slackUsername cfg
  /\ icon_emoji m = slackIcon cfg.
Proof.
  intros Hin.
  assert (H : m = noOutputMessage cfg
              \/ exists text st,
                   readFile env (outputXmlPath cfg) = inr text
                   /\ extraction env text = Normal (Some st)
                   /\ m = statsMessage cfg env st).
  { destruct (readFile env (outputXmlPath cfg)) as [err|[|c t]] eqn:Hread.
    1,2: pose proof (run_on_no_report cfg env) as H; rewrite Hread in H;
      destruct (H I) as (_ & _ & Hout); rewrite Hout in Hin;
      destruct (alertChannelOnNoOutput cfg); [|destruct Hin];
      destruct Hin as [<-|[]]; now left.
    destruct (run_on_report cfg env c t Hread) as (_ & _ & Hmsg).
    destruct (Hmsg m Hin) as (st & Hst & ->).
    right; now exists (c :: t), st. }
  split; [exact H|].
  destruct H as [->|(text & st & _ & _ & ->)]; now repeat split.
Qed.

Lemma every_message_is_configured_witness :
  let cfg := sampleConfig false false false false in
  let text := report "<stat pass='8' fail='2' skip='0'>All Tests</stat>" in
  let env := sampleEnv (inr text) in
  exists m,
    In m (outbox (snd (run cfg env start)))
    /\ channel m = lit "#ci" /\ username m = lit "robot"
    /\ icon_emoji m = lit ":robot_face:".
Proof.
  intros cfg text env.
  exists (hd (noOutputMessage cfg) (outbox (snd (run cfg env start)))).
  assert (Hin : In (hd (noOutputMessage cfg) (outbox (snd (run cfg env start))))
                   (outbox (snd (run cfg env start))))
    by (vm_compute; left; reflexivity).
  split; [exact Hin|].
  exact (proj2 (every_message_is_configured cfg env _ Hin)).
Defined.

Lemma getStats_same_parse (env env' : Env) (text : jsstring) (w : world) :
  parse env (generatedOf text) = parse env' (generatedOf text) ->
  getStats env text w = getStats env' text w.
Proof.
  intros Hparse; unfold getStats, getArg.
  destruct (exec summaryRe text) as [line|]; [|reflexivity].
  unfold_monad.
  destruct (exec (argRe (lit "pass")) line); [|reflexivity].
  destruct (exec (argRe (lit "fail")) line); [|reflexivity].
  destruct (exec (argRe (lit "skip")) line); [|reflexivity].
  fold (generatedOf text); now rewrite Hparse.
Qed.

(** X18.  A run touches its surroundings at four places only: it reads the
    file at the configured path, asks the webhook at the configured address,
    takes the run number, and has the date parser read the generation stamp
    of the report.  Two surroundings that agree there give the same run. *)
Theorem run_reads_only_what_is_configured (cfg : Config) (env env' : Env) :
  readFile env (outputXmlPath cfg) = readFile env' (outputXmlPath cfg) ->
  (forall m, webhookSend env (slackWebhookUrl cfg) m
             = webhookSend env' (slackWebhookUrl cfg) m) ->
  runNumber env = runNumber env' ->
  (forall text, readFile env (outputXmlPath cfg) = inr text ->
                parse env (generatedOf text) = parse env' (generatedOf text)) ->
  run cfg env start = run cfg env' start.
Proof.
  intros Hread Hsend Hnum Hparse; unfold run, getResults.
  rewrite <- Hread.
  destruct (readFile env (outputXmlPath cfg)) as [err|[|c t]] eqn:E;
    unfold_monad.
  1,2: destruct (alertChannelOnNoOutput cfg); [|reflexivity];
    unfold sendSlackMessage; now rewrite Hsend.
  rewrite (getStats_same_parse env env' (c :: t) _ (Hparse _ eq_refl)).
  destruct (getStats env' (c :: t) _) as [[[st|]|e] w1]; try reflexivity.
  unfold sendStats, sendSlackMessage; now rewrite Hsend, Hnum.
Qed.

Lemma run_reads_only_what_is_configured_witness :
  let cfg := sampleConfig false false false true in
  let text := report "<stat pass='8' fail='2' skip='0'>All Tests</stat>" in
  let env := sampleEnv (inr text) in
  let env' :=
    {| readFile := fun path => if eqs path (lit "results/output.xml")
                               then inr text else inl (lit "ENOENT");
       webhookSend := fun url _ =>
                        if eqs url (slackWebhookUrl cfg) then None
                        else Some (lit "unknown address");
       runNumber := 7%float;
       parse := fun s => if eqs s (lit "20231105 10:00:00.123")
                         then DateFns.parse 0 s else None |} in
  run cfg env start = run cfg env' start.
Proof.
  intros cfg text env env'.
  apply (run_reads_only_what_is_configured cfg env env').
  - reflexivity.
  - reflexivity.
  - reflexivity.
  - intros text' [= <-]; now vm_compute.
Defined.

(** * The start of the program *)

(** Building the object either reads all eleven inputs and gives the
    configuration made of their values, or stops at an input whose read
    throws, with its error; it leaves no trace either way. *)
Lemma construct_cases (getInput : Inputs) (w : world) :
  (construct getInput w = (Normal (configOf getInput), w)
   /\ forall name required, In (name, required) inputsRead ->
        exists v, getInput (lit name) required = Normal v)
  \/ exists name required e,
       In (name, required) inputsRead
       /\ getInput (lit name) required = Throw e
       /\ construct getInput w = (Throw e, w).
Proof.
  unfold construct, configOf, inputValue, readInput; unfold_monad.
  do 11 (match goal with
         | |- context [match getInput (lit ?n) ?r with _ => _ end] =>
             let E := fresh "E" in
             destruct (getInput (lit n) r) as [?v|?e] eqn:E;
               [|right; exists n, r, e;
                 split; [simpl; tauto|split; [exact E|reflexivity]]]
         end).
  left; split; [reflexivity|].
  intros name required Hin; simpl in Hin.
  repeat (destruct Hin as [[= <- <-]|Hin]; [eauto|]); destruct Hin.
Qed.

Lemma getStats_log_grows (env : Env) (text : jsstring) (w : world) :
  exists l, log (snd (getStats env text w)) = log w ++ l.
Proof.
  unfold getStats, getArg.
  destruct (exec summaryRe text) as [line|]; [|now eexists].
  unfold_monad.
  destruct (exec (argRe (lit "pass")) line); [|now eexists].
  destruct (exec (argRe (lit "fail")) line); [|now eexists].
  destruct (exec (argRe (lit "skip")) line); [|now eexists].
  exists []; now rewrite app_nil_r.
Qed.

(** Every run logs its first line before anything else. *)
Lemma run_logs_first (cfg : Config) (env : Env) :
  exists l, log (snd (run cfg env start)) = runningLine :: l.
Proof.
  unfold run, getResults.
  destruct (readFile env (outputXmlPath cfg)) as [err|[|c t]]; unfold_monad.
  1,2: destruct (alertChannelOnNoOutput cfg); [|now eexists];
    unfold sendSlackMessage; destruct (webhookSend env _ _); now eexists.
  match goal with
  | |- context [getStats env ?x ?w0] =>
      destruct (getStats_log_grows env x w0) as [l Hl];
      destruct (getStats env x w0) as [[[st|]|e] w1]
  end; cbn [fst snd log] in *.
  - unfold sendStats, sendSlackMessage.
    destruct (webhookSend env _ _); cbn [fst snd log]; rewrite ?Hl;
      now eexists.
  - rewrite Hl; now eexists.
  - rewrite Hl; now eexists.
Qed.

(** No method reads the three fields of the idle switches. *)
Lemma run_ignores_idle_fields (cfg cfg' : Config) (env : Env) (w : world) :
  outputXmlPath cfg = outputXmlPath cfg' ->
  slackWebhookUrl cfg = slackWebhookUrl cfg' ->
  slackChannel cfg = slackChannel cfg' ->
  slackUsername cfg = slackUsername cfg' ->
  slackIcon cfg = slackIcon cfg' ->
  slackHeader cfg = slackHeader cfg' ->
  alertChannelOnNoOutput cfg = alertChannelOnNoOutput cfg' ->
  noOutputFoundMessage cfg = noOutputFoundMessage cfg' ->
  run cfg env w = run cfg' env w.
Proof.
  destruct cfg, cfg'; cbn; intros; subst; reflexivity.
Qed.

(** The inputs are read in the order of their declaration: building the
    object stops at the first input whose read throws, with its error. *)
Lemma construct_first_error (getInput : Inputs) (w : world)
      (before after : list (string * bool)) (name : string) (required : bool)
      (e : jsstring) :
  inputsRead = before ++ (name, required) :: after ->
  (forall n r, In (n, r) before -> exists v, getInput (lit n) r = Normal v) ->
  getInput (lit name) required = Throw e ->
  construct getInput w = (Throw e, w).
Proof.
  intros Hsplit Hbefore Hthrow.
  unfold inputsRead in Hsplit.
  unfold construct, readInput; unfold_monad.
  do 11 (destruct before as [|[n0 r0] before];
         [ cbn [app] in Hsplit; injection Hsplit as Hn Hr _;
           rewrite <- Hn, <- Hr in Hthrow; rewrite Hthrow; reflexivity
         | cbn [app] in Hsplit; injection Hsplit as Hn Hr Hsplit;
           destruct (Hbefore n0 r0 (or_introl eq_refl)) as [? Hv];
           rewrite <- Hn, <- Hr in Hv; rewrite Hv; clear Hv Hn Hr;
           assert (Hrest : forall n r, In (n, r) before ->
                             exists v, getInput (lit n) r = Normal v)
             by (intros n r Hin; apply Hbefore; now right);
           clear Hbefore n0 r0; rename Hrest into Hbefore ]).
  destruct before; discriminate.
Qed.

(** X19.  The program reads its eleven inputs, in the order of their
    declaration, before it logs anything.  It stops at the first input whose
    read throws, with the error of that input and without a trace; it ends
    without a log line exactly when the read of one of the inputs throws, and
    then it ends with an error, has sent nothing and exits with a status
    that is not zero.  When all eleven are read, the program is [run] on the
    configuration made of their values. *)
Theorem inputs_are_read_first (getInput : Inputs) (env : Env) :
  (forall before name required after e,
     inputsRead = before ++ (name, required) :: after ->
     (forall n r, In (n, r) before ->
        exists v, getInput (lit n) r = Normal v) ->
     getInput (lit name) required = Throw e ->
     main getInput env start = (Throw e, start))
  /\ (log (snd (main getInput env start)) = [] <->
      exists name required e,
        In (name, required) inputsRead
        /\ getInput (lit name) required = Throw e)
  /\ (log (snd (main getInput env start)) = [] ->
      (exists e, fst (main getInput env start) = Throw e)
      /\ outbox (snd (main getInput env start)) = []
      /\ exitCode (main getInput env start) = 1%Z)
  /\ ((forall name required, In (name, required) inputsRead ->
         exists v, getInput (lit name) required = Normal v) ->
      main getInput env start = run (configOf getInput) env start).
Proof.
  split.
  { intros before name required after e Hsplit Hbefore Hthrow.
    unfold main, bind.
    now rewrite (construct_first_error getInput start before after name
                   required e Hsplit Hbefore Hthrow). }
  unfold main, bind.
  destruct (construct_cases getInput start)
    as [[-> Hall]|(name & required & e & Hin & Hthrow & ->)].
  - destruct (run_logs_first (configOf getInput) env) as [l Hl].
    split; [split|split].
    + rewrite Hl; discriminate.
    + intros (name & required & e & Hin & Hthrow).
      destruct (Hall name required Hin) as [v Hv]; congruence.
    + rewrite Hl; discriminate.
    + reflexivity.
  - split; [split|split].
    + now exists name, required, e.
    + reflexivity.
    + intros _; split; [now exists e|now split].
    + intros Hall; destruct (Hall name required Hin) as [v Hv]; congruence.
Qed.

(** X20.  Without a report, or with an empty one, the fallback message goes
    out exactly when the input [alert_channel_on_no_output] reads as the four
    characters of [true]: any other value, [True] and the empty string
    included, leaves the switch off. *)
Theorem fallback_switch_is_exact (getInput : Inputs) (env : Env) :
  (forall name required, In (name, required) inputsRead ->
     exists v, getInput (lit name) required = Normal v) ->
  match readFile env (inputValue getInput "output_xml_path" true) with
  | inr (_ :: _) => False
  | _ => True
  end ->
  (outbox (snd (main getInput env start)) = [noOutputMessage (configOf getInput)]
   <-> getInput (lit "alert_channel_on_no_output") false = Normal (lit "true"))
  /\ (outbox (snd (main getInput env start)) = []
      <-> getInput (lit "alert_channel_on_no_output") false
          <> Normal (lit "true")).
Proof.
  intros Hall Hread; unfold main, bind.
  destruct (construct_cases getInput start)
    as [[-> _]|(name & required & e & Hin & Hthrow & _)];
    [|destruct (Hall name required Hin) as [v Hv]; congruence].
  destruct (run_on_no_report (configOf getInput) env Hread) as (_ & _ & ->).
  destruct (Hall "alert_channel_on_no_output"%string false) as [v Hv];
    [simpl; tauto|].
  change (alertChannelOnNoOutput (configOf getInput))
    with (eqs (inputValue getInput "alert_channel_on_no_output" false)
              (lit "true")).
  unfold inputValue; rewrite Hv.
  destruct (eqs v (lit "true")) eqn:E.
  - apply eqs_spec in E; subst v.
    split; split; intros H; try reflexivity; try discriminate; congruence.
  - assert (Hne : v <> lit "true")
      by (intros ->; rewrite (proj2 (eqs_spec _ _) eq_refl) in E;
          discriminate).
    split; split; intros H; try reflexivity; try discriminate; congruence.
Qed.

Lemma fallback_switch_is_exact_witness :
  let env := sampleEnv (inl (lit "ENOENT")) in
  outbox (snd (main (sampleInputs "false" "false" "false" "True") env start))
  = []
  /\ length
       (outbox (snd (main (sampleInputs "false" "false" "false" "true") env
                          start)))
     = 1%nat.
Proof.
  intros env; split.
  - apply (fallback_switch_is_exact
             (sampleInputs "false" "false" "false" "True") env).
    + intros name required Hin; simpl in Hin.
      repeat (destruct Hin as [[= <- <-]|Hin]; [now eexists|]); destruct Hin.
    + exact I.
    + discriminate.
  - rewrite (proj2 (proj1 (fallback_switch_is_exact
               (sampleInputs "false" "false" "false" "true") env
               ltac:(intros name required Hin; simpl in Hin;
                     repeat (destruct Hin as [[= <- <-]|Hin];
                             [now eexists|]); destruct Hin)
               I)) eq_refl).
    reflexivity.
Defined.

(** X21.  The three inputs [alert_channel_on_failure],
    [alert_channel_on_skipped] and [alert_channel_on_success] have no effect on
    the program: two sets of inputs that differ in them only, and in which
    reading them does not throw, give the same run, message for message. *)
Theorem idle_switches_have_no_effect (getInput getInput' : Inputs) (env : Env) :
  (forall name required, ~ In name idleSwitches ->
     getInput name required = getInput' name required) ->
  (forall name, In name idleSwitches ->
     exists v v', getInput name false = Normal v
                  /\ getInput' name false = Normal v') ->
  main getInput env start = main getInput' env start.
Proof.
  intros Hsame Hidle.
  assert (Hnot : forall name : string,
            eqs (lit name) (lit "alert_channel_on_failure") = false ->
            eqs (lit name) (lit "alert_channel_on_skipped") = false ->
            eqs (lit name) (lit "alert_channel_on_success") = false ->
            ~ In (lit name) idleSwitches).
  { intros name H1 H2 H3 [H|[H|[H|[]]]]; rewrite <- H in *;
      rewrite (proj2 (eqs_spec _ _) eq_refl) in *; discriminate. }
  assert (Hother : forall (name : string) required,
            eqs (lit name) (lit "alert_channel_on_failure") = false ->
            eqs (lit name) (lit "alert_channel_on_skipped") = false ->
            eqs (lit name) (lit "alert_channel_on_success") = false ->
            getInput' (lit name) required = getInput (lit name) required)
    by (intros; symmetry; apply Hsame; now apply Hnot).
  unfold main, construct, readInput; unfold_monad.
  rewrite (Hother "output_xml_path"%string true eq_refl eq_refl eq_refl),
    (Hother "slack_webhook_url"%string true eq_refl eq_refl eq_refl),
    (Hother "slack_channel"%string true eq_refl eq_refl eq_refl),
    (Hother "slack_username"%string false eq_refl eq_refl eq_refl),
    (Hother "slack_icon"%string false eq_refl eq_refl eq_refl),
    (Hother "slack_header"%string false eq_refl eq_refl eq_refl),
    (Hother "alert_channel_on_no_output"%string false eq_refl eq_refl eq_refl),
    (Hother "no_output_found_message"%string false eq_refl eq_refl eq_refl).
  destruct (Hidle (lit "alert_channel_on_failure") ltac:(simpl; tauto))
    as (v1 & v1' & -> & ->).
  destruct (Hidle (lit "alert_channel_on_skipped") ltac:(simpl; tauto))
    as (v2 & v2' & -> & ->).
  destruct (Hidle (lit "alert_channel_on_success") ltac:(simpl; tauto))
    as (v3 & v3' & -> & ->).
  do 8 (match goal with
        | |- context [match getInput (lit ?n) ?r with _ => _ end] =>
            destruct (getInput (lit n) r); [|reflexivity]
        end).
  now apply run_ignores_idle_fields.
Qed.

Lemma idle_switches_have_no_effect_witness :
  let env :=
    sampleEnv
      (inr (report "<stat pass='10' fail='0' skip='0'>All Tests</stat>")) in
  main (sampleInputs "false" "false" "false" "false") env start
  = main (sampleInputs "true" "true" "true" "false") env start
  /\ length (outbox (snd (main (sampleInputs "false" "false" "false" "false")
                               env start))) = 1%nat.
Proof.
  intros env; split; [|now vm_compute].
  apply (idle_switches_have_no_effect
           (sampleInputs "false" "false" "false" "false")
           (sampleInputs "true" "true" "true" "false") env).
  - intros name required Hn; unfold sampleInputs, tableInputs; cbn [find fst snd].
    destruct (eqs (lit "alert_channel_on_failure") name) eqn:E1;
      [apply eqs_spec in E1; exfalso; apply Hn; rewrite <- E1; simpl; tauto|].
    destruct (eqs (lit "alert_channel_on_skipped") name) eqn:E2;
      [apply eqs_spec in E2; exfalso; apply Hn; rewrite <- E2; simpl; tauto|].
    destruct (eqs (lit "alert_channel_on_success") name) eqn:E3;
      [apply eqs_spec in E3; exfalso; apply Hn; rewrite <- E3; simpl; tauto|].
    reflexivity.
  - intros name Hin; simpl in Hin.
    destruct Hin as [<-|[<-|[<-|[]]]]; now eexists; eexists.
Defined.

(** * The colour of a report *)

(** A rate of less than a thousand in tenths is below the limit of
    [toFixed]. *)
Lemma small_tenths_below_limit (m : positive) (e : Z) :
  (tenths m e < 10000)%Z -> belowFixedLimit m e.
Proof.
  unfold tenths, belowFixedLimit; cbv zeta.
  set (num := if (0 <=? e)%Z then (Z.pos m * 2 ^ e)%Z else Z.pos m).
  set (den := if (0 <=? e)%Z then 1%Z else (2 ^ (- e))%Z).
  assert (Hden : (0 < den)%Z).
  { unfold den; destruct (0 <=? e)%Z eqn:E; [lia|].
    apply Z.pow_pos_nonneg; [lia|apply Z.leb_gt in E; lia]. }
  intros H.
  pose proof (Z.div_mod (20 * num + den) (2 * den) ltac:(lia)) as Hdm.
  pose proof (Z.mod_pos_bound (20 * num + den) (2 * den) ltac:(lia)) as Hmod.
  nia.
Qed.

(** The two tests of [getColor] on a whole number below a thousand, with its
    sign. *)
Lemma whole_rate_tests (sg : bool) (q : Z) :
  (0 <= q < 1000)%Z ->
  (signedCount sg q =? 100)%float = negb sg && (q =? 100)%Z
  /\ (80 <? signedCount sg q)%float = negb sg && (80 <? q)%Z.
Proof.
  intros Hq.
  assert (Hall :
            forallb
              (fun n =>
                 forallb
                   (fun sg =>
                      Bool.eqb (signedCount sg (Z.of_nat n) =? 100)%float
                               (negb sg && (Z.of_nat n =? 100)%Z)
                      && Bool.eqb (80 <? signedCount sg (Z.of_nat n))%float
                                  (negb sg && (80 <? Z.of_nat n)%Z))
                   [true; false])
              (seq 0 1000) = true) by now vm_compute.
  rewrite forallb_forall in Hall.
  specialize (Hall (Z.to_nat q) ltac:(apply in_seq; lia)).
  rewrite Z2Nat.id in Hall by lia.
  cbn [forallb] in Hall.
  rewrite !Bool.andb_true_iff in Hall.
  destruct Hall as ([H1 H2] & [H3 H4] & _).
  apply Bool.eqb_prop in H1, H2, H3, H4.
  destruct sg; now split.
Qed.

(** X22.  The colour follows the rate after it has been cut to a whole
    number, not the rate itself.  For counts that give a rate above zero and
    below a thousand, with [t] the rate rounded to tenths: the message is
    green exactly when [t] is 100.0 and more (so from a rate of 99.95, with
    tests that failed), amber exactly when [t] is 81.0 and more and the
    message is not green, and red below, a rate of 80.9 included. *)
Theorem colour_follows_the_cut_rate (env : Env)
        (text line vp vf vs : jsstring) (w : world) (m : positive) (e : Z) :
  exec summaryRe text = Some line ->
  exec (argRe (lit "pass")) line = Some vp ->
  exec (argRe (lit "fail")) line = Some vf ->
  exec (argRe (lit "skip")) line = Some vs ->
  Prim2SF (rawRate (parseInt vp) (parseInt vf) (parseInt vs))
  = S754_finite false m e ->
  (tenths m e < 10000)%Z ->
  exists st,
    getStats env text w = (Normal (Some st), w)
    /\ getColor st
       = (if (1000 <=? tenths m e)%Z && (tenths m e <? 1010)%Z then green
          else if (810 <=? tenths m e)%Z then amber
          else red).
Proof.
  intros Hline Hp Hf Hs Hx Hsmall; eexists; split.
  - exact (getStats_found env text line vp vf vs w Hline Hp Hf Hs).
  - pose proof (parseInt_toFixed1 _ false m e Hx
                  (small_tenths_below_limit m e Hsmall)) as Hr.
    unfold rawRate in Hr.
    unfold getColor; cbn [successRate]; rewrite Hr.
    pose proof (tenths_nonneg m e) as H0.
    pose proof (Z.div_mod (tenths m e) 10 ltac:(lia)) as Hdm.
    pose proof (Z.mod_pos_bound (tenths m e) 10 ltac:(lia)) as Hmod.
    destruct (whole_rate_tests false (tenths m e / 10) ltac:(lia))
      as [-> ->]; cbn [negb andb].
    destruct (Z.eqb_spec (tenths m e / 10) 100) as [E|E];
      destruct (Z.ltb_spec 80 (tenths m e / 10));
      destruct (Z.leb_spec 1000 (tenths m e));
      destruct (Z.ltb_spec (tenths m e) 1010);
      destruct (Z.leb_spec 810 (tenths m e));
      cbn [andb]; try reflexivity; exfalso; lia.
Qed.

Lemma colour_follows_the_cut_rate_witness :
  let nearly := report "<stat pass='9999' fail='1' skip='0'>All Tests</stat>" in
  let above := report "<stat pass='809' fail='191' skip='0'>All Tests</stat>" in
  (exists st,
     getStats (sampleEnv (inr nearly)) nearly start = (Normal (Some st), start)
     /\ failed st = 1%float /\ getColor st = green)
  /\ (exists st,
        getStats (sampleEnv (inr above)) above start = (Normal (Some st), start)
        /\ tenths 5692831403973018 (-46) = 809%Z /\ getColor st = red).
Proof.
  intros nearly above; split.
  - destruct (colour_follows_the_cut_rate (sampleEnv (inr nearly)) nearly
                (xml "<stat pass='9999' fail='1' skip='0'>All Tests</stat>")
                (lit "9999") (lit "1") (lit "0") start
                7036170730324623 (-46)
                ltac:(now vm_compute) ltac:(now vm_compute)
                ltac:(now vm_compute) ltac:(now vm_compute)
                ltac:(now vm_compute) ltac:(now vm_compute))
      as (st & Hst & Hcolour).
    exists st; split; [exact Hst|split; [|exact Hcolour]].
    assert (Hsame : getStats (sampleEnv (inr nearly)) nearly start
                    = (Normal (Some st), start)) by exact Hst.
    vm_compute in Hsame; injection Hsame as <-; now vm_compute.
  - destruct (colour_follows_the_cut_rate (sampleEnv (inr above)) above
                (xml "<stat pass='809' fail='191' skip='0'>All Tests</stat>")
                (lit "809") (lit "191") (lit "0") start
                5692831403973018 (-46)
                ltac:(now vm_compute) ltac:(now vm_compute)
                ltac:(now vm_compute) ltac:(now vm_compute)
                ltac:(now vm_compute) ltac:(now vm_compute))
      as (st & Hst & Hcolour).
    exists st; split; [exact Hst|split; [now vm_compute|exact Hcolour]].
Defined.
